(** * Rank-biased precision and the evaluation pipeline of lkdemo

    Shallow embedding of [lkdemo/metrics.py] (the discount function,
    [rbp_max], the scalar [rbp] and its bulk form [_bulk_rbp]),
    [compute-metrics.py] (the parallel aggregator) and [split-data.py]
    (the test-set writer).

    Numbers: the Python code computes with floats; here scores are exact
    rationals [Q].  A recommendation list is the list of its rows in frame
    order, each row carrying its [rank] (an integer) and its [item].  A truth
    frame for one user is the list of its index entries (the items). *)

From Stdlib Require Import QArith Qpower Lqa List Bool Lia ZArith Arith.
From Stdlib Require String DecimalString DecimalZ Finite.
From Stdlib Require Import Sorted.
Import ListNotations.

Open Scope Q_scope.

(* ------------------------------------------------------------------------- *)
(** ** [lkdemo/metrics.py] *)

Module Metrics.

Abbreviation item := nat (only parsing).

(** The default patience [PATIENCE = 0.8]. *)
Definition PATIENCE : Q := 4 # 5.

(** [def discount(ranks, patience=PATIENCE): return patience ** ranks] *)
Definition discount (rank : Z) (patience : Q) : Q := Qpower patience rank.

(** [np.sum] over a sequence of floats ([0.0] on an empty one). *)
Definition qsum (xs : list Q) : Q := fold_right Qplus 0 xs.

(** [rbp_max(ngood, patience)]:
    [max = np.sum(patience ** np.arange(1, ngood+1)); max *= (1 - patience)] *)
Definition rbp_max (ngood : nat) (patience : Q) : Q :=
  qsum (map (fun i => Qpower patience (Z.of_nat i)) (seq 1 ngood)) * (1 - patience).

(** [test_weight(n, patience) = (1 - patience ** n) / (n * (1 - patience))];
    [None] where Python raises [ZeroDivisionError]: [0.0 ** n] for [n < 0]
    in the numerator, or a zero denominator. *)
Definition test_weight (n : Z) (patience : Q) : option Q :=
  let den := inject_Z n * (1 - patience) in
  if (Qeq_bool patience 0 && Z.ltb n 0) || Qeq_bool den 0 then None
  else Some ((1 - Qpower patience n) / den).

(** One row of a single user's recommendation frame. *)
Record rec := mkRec { rank : Z; ritem : item }.

(** [recs['item'].isin(truth.index)] for one row. *)
Definition isin (i : item) (truth : list item) : bool :=
  existsb (Nat.eqb i) truth.

(** [if k is not None: recs = recs.iloc[:k]]; cutoffs are non-negative. *)
Definition truncate (k : option nat) (recs : list rec) : list rec :=
  match k with
  | Some k => firstn k recs
  | None => recs
  end.

(** Scalar form:
<<
def rbp(recs, truth, k=None, patience=PATIENCE):
    if k is not None:
        recs = recs.iloc[:k]
    nrel = len(truth)
    if nrel == 0:
        return None
    good = recs['item'].isin(truth.index)
    ranks = recs['rank'][good]
    disc = discount(ranks, patience)
    return np.sum(disc) * (1 - patience)
>> *)
Definition rbp (recs : list rec) (truth : list item) (k : option nat)
    (patience : Q) : option Q :=
  let recs := truncate k recs in
  let nrel := length truth in
  if Nat.eqb nrel 0 then None
  else
    let good := filter (fun r => isin (ritem r) truth) recs in
    let ranks := map rank good in
    let disc := map (fun r => discount r patience) ranks in
    Some (qsum disc * (1 - patience)).

(** Bulk form.  The multi-user recommendation frame has one row per
    recommended item, keyed by the list it belongs to ([LKRecID]) and the
    truth group it is scored against ([LKTruthID]); the truth frame has one
    row per relevant item, indexed by ([LKTruthID], [item]). *)
Record brow := mkBRow { LKRecID : nat; LKTruthID : nat; brank : Z; bitem : item }.
Record trow := mkTRow { tLKTruthID : nat; titem : item }.

(** [if k is not None: recs = recs[recs['rank'] <= k]] *)
Definition bulk_truncate (k : option nat) (recs : list brow) : list brow :=
  match k with
  | Some k => filter (fun r => Z.leb (brank r) (Z.of_nat k)) recs
  | None => recs
  end.

(** [recs.join(truth, on=['LKTruthID', 'item'], how='inner')]: one output row
    per pair of a recommendation row and a truth row with the same key. *)
Definition join_inner (recs : list brow) (truth : list trow) : list brow :=
  flat_map (fun r =>
    map (fun _ => r)
      (filter (fun t => Nat.eqb (tLKTruthID t) (LKTruthID r)
                        && Nat.eqb (titem t) (bitem r)) truth)) recs.

(** [groupby(key)[col].sum()]: one entry per key present (pandas orders the
    keys; lookups below do not depend on the order). *)
Definition groupby_sum (rows : list (nat * Q)) : list (nat * Q) :=
  map (fun key => (key, qsum (map snd (filter (fun kv => Nat.eqb (fst kv) key) rows))))
    (nodup Nat.eq_dec (map fst rows)).

(** A pandas Series indexed by [LKRecID], and [Series.get(key)]. *)
Definition series := list (nat * Q).
Definition series_get (s : series) (key : nat) : option Q :=
  match find (fun kv => Nat.eqb (fst kv) key) s with
  | Some kv => Some (snd kv)
  | None => None
  end.

(**
<<
@bulk_impl(rbp)
def _bulk_rbp(recs, truth, k=None, patience=PATIENCE):
    if k is not None:
        recs = recs[recs['rank'] <= k]
    good = recs.join(truth, on=['LKTruthID', 'item'], how='inner')
    good['rbp_disc'] = discount(good['rank'], patience)
    scores = good.groupby('LKRecID')['rbp_disc'].sum()
    scores *= (1 - patience)
    return scores
>> *)
Definition _bulk_rbp (recs : list brow) (truth : list trow) (k : option nat)
    (patience : Q) : series :=
  let recs := bulk_truncate k recs in
  let good := join_inner recs truth in
  let good := map (fun r => (LKRecID r, discount (brank r) patience)) good in
  let scores := groupby_sum good in
  map (fun kv => (fst kv, snd kv * (1 - patience))) scores.

(** The slice of one list ([LKRecID = rid]) as the scalar form sees it, and
    the truth items of one truth group. *)
Definition user_recs (recs : list brow) (rid : nat) : list rec :=
  map (fun b => mkRec (brank b) (bitem b))
    (filter (fun b => Nat.eqb (LKRecID b) rid) recs).

Definition user_truth (truth : list trow) (tid : nat) : list item :=
  map titem (filter (fun t => Nat.eqb (tLKTruthID t) tid) truth).

(** Some retained entry of the (truncated) list is relevant. *)
Definition has_hit (recs : list rec) (truth : list item) (k : option nat) : bool :=
  existsb (fun r => isin (ritem r) truth) (truncate k recs).

(** The data model's well-formed recommendation list: ranks start at 1 and
    strictly increase, and no item occurs twice. *)
Fixpoint strictly_increasing (rs : list Z) : bool :=
  match rs with
  | x :: ((y :: _) as t) => Z.ltb x y && strictly_increasing t
  | _ => true
  end.

Fixpoint distinct (xs : list item) : bool :=
  match xs with
  | [] => true
  | x :: t => negb (existsb (Nat.eqb x) t) && distinct t
  end.

Definition well_formed_list (recs : list rec) : bool :=
  match map rank recs with [] => true | r :: _ => Z.eqb r 1 end
  && strictly_increasing (map rank recs)
  && distinct (map ritem recs).

(** Ranks [s, s+1, s+2, ...] in list order (lists produced by a recommender
    carry ranks [1..n]). *)
Fixpoint ranks_from (s : Z) (l : list rec) : bool :=
  match l with
  | [] => true
  | r :: t => Z.eqb (rank r) s && ranks_from (s + 1) t
  end.

(** No two truth rows share the key ([LKTruthID], [item]). *)
Definition trow_eqb (a b : trow) : bool :=
  Nat.eqb (tLKTruthID a) (tLKTruthID b) && Nat.eqb (titem a) (titem b).

Fixpoint trows_distinct (l : list trow) : bool :=
  match l with
  | [] => true
  | t :: l' => negb (existsb (trow_eqb t) l') && trows_distinct l'
  end.

(** Reading the claims in the words of the specification: the score over the
    first [k] ranked entries, summing [patience^rank] for the entries whose
    item is in the truth set, times [(1 - patience)]. *)
Definition rbp_spec_score (recs : list rec) (truth : list item) (k : option nat)
    (patience : Q) : Q :=
  let n := match k with Some k => Nat.min k (length recs) | None => length recs end in
  (1 - patience) *
  qsum (map (fun i => match nth_error recs i with
                      | Some r => if in_dec Nat.eq_dec (ritem r) truth
                                  then Qpower patience (rank r) else 0
                      | None => 0
                      end) (seq 0 n)).

(** The row predicates of [_bulk_rbp]'s truncation and inner join. *)
Definition trunc_pred (k : option nat) (b : brow) : bool :=
  match k with Some k => Z.leb (brank b) (Z.of_nat k) | None => true end.

Definition join_hit (truth : list trow) (b : brow) : bool :=
  existsb (fun t => Nat.eqb (tLKTruthID t) (LKTruthID b)
                    && Nat.eqb (titem t) (bitem b)) truth.

End Metrics.

(* ------------------------------------------------------------------------- *)
(** ** Python statements with effects

    A script step reads and updates a state [S] (the log and the files
    written) and either returns a value or raises an exception. *)

Module Py.

Inductive exc :=
  | SystemExit (code : Z)
  | TypeError
  | ValueError
  | AttributeError
  | OSError.

Definition M (S A : Type) : Type := S -> S * (exc + A).

Definition ret {S A} (a : A) : M S A := fun s => (s, inr a).

Definition bind {S A B} (m : M S A) (k : A -> M S B) : M S B :=
  fun s => match m s with
           | (s', inl e) => (s', inl e)
           | (s', inr a) => k a s'
           end.

Definition raise {S A} (e : exc) : M S A := fun s => (s, inl e).

Notation "x <- m ;; k" := (bind m (fun x => k))
  (at level 61, m at next level, right associativity).
Notation "m ;; k" := (bind m (fun _ => k)) (at level 61, right associativity).

(** [for x in l: body(x)] *)
Fixpoint for_each {S A} (l : list A) (body : A -> M S unit) : M S unit :=
  match l with
  | [] => ret tt
  | x :: t => body x ;; for_each t body
  end.

(** Python integers and [None] as the flags hold them after conversion. *)
Inductive pyval := PyNone | PyInt (z : Z).

(** Truth value: [None] and [0] are false. *)
Definition truthy (v : pyval) : bool :=
  match v with PyNone => false | PyInt z => negb (Z.eqb z 0) end.

Definition is_None (v : pyval) : bool :=
  match v with PyNone => true | PyInt _ => false end.

(** [max(a, b)]: comparing [None] with an int raises [TypeError]. *)
Definition py_max {S} (a b : pyval) : M S Z :=
  match a, b with
  | PyInt x, PyInt y => ret (Z.max x y)
  | _, _ => raise TypeError
  end.

(** [range(n)] and [enumerate(xs, 1)] over a generator of [n] items. *)
Definition range (n : Z) : list Z := map Z.of_nat (seq 0 (Z.to_nat n)).
Definition enumerate_from_1 (n : nat) : list Z := map Z.of_nat (seq 1 n).

(** [f'{i}'] for an int. *)
Definition str_of_int (i : Z) : String.string :=
  DecimalString.NilZero.string_of_int (Z.to_int i).

End Py.

(* ------------------------------------------------------------------------- *)
(** ** [split-data.py] *)

Module SplitData.
Import Py.
Import String.
Local Open Scope string_scope.

Inductive level := DEBUG | INFO | WARNING | ERROR.

(** What the script leaves behind: its log records and the test files it
    wrote under the output directory (by file name, in order). *)
Record state := mkState { logs : list (level * String.string);
                          files : list String.string }.

Definition init : state := mkState [] [].

Definition log (l : level) (msg : String.string) : M state unit :=
  fun s => (mkState (app (logs s) [(l, msg)]) (files s), inr tt).

(** [test.to_parquet(path / fn, compression='brotli')] *)
Definition to_parquet (fn : String.string) : M state unit :=
  fun s => (mkState (logs s) (app (files s) [fn]), inr tt).

(** The flags after [if x: x = int(x)]: [PyNone] when absent, the integer
    otherwise.  [-n] and [-o] carry defaults and only shape file contents and
    the directory, not the file names modelled here. *)
Record args := mkArgs { arg_p : pyval; arg_u : pyval; arg_R : pyval }.

(** [xf.partition_users(ratings, partitions, samp)] and
    [xf.sample_users(ratings, partitions, nusers, samp)] yield one train/test
    pair per partition; only their number matters to the file names. *)
Definition n_parts (partitions : pyval) : nat :=
  match partitions with PyInt p => Z.to_nat p | PyNone => 0 end.

Definition test_i (i : Z) : String.string :=
  String.append "test-" (String.append (str_of_int i) ".parquet").

(**
<<
    if partitions is None and nusers is None:
        _log.error('must specify at least 1 of -p and -u')
        sys.exit(2)
    init_file('params.yaml', 'split-data', dsname)
    _log.info('locating data set %s', dsname)
    data = getattr(datasets, dsname)
    _log.info('loading ratings')
    ratings = data.ratings
    path = Path(output)
    path.mkdir(exist_ok=True, parents=True)
    _log.info('writing to %s', path)
    samp = xf.SampleN(nrates)
    if partitions:
        if reps:
            _log.info('reps and partitions incompatible')
        if nusers:
            _log.info('computing %d samples of %d users', partitions, nusers)
            parts = xf.sample_users(ratings, partitions, nusers, samp)
        else:
            _log.info('computing %d partitions', partitions)
            parts = xf.partition_users(ratings, partitions, samp)
        for i, tp in enumerate(parts, 1):
            _log.info('writing test set %d', i)
            tp.test.index.name = 'index'
            tp.test.to_parquet(path / f'test-{i}.parquet', compression='brotli')
    else:
        for i in range(max(reps, 1)):
            train, test = next(xf.sample_users(ratings, 1, nusers, samp))
            fn = f'test-{i}.parquet' if reps else 'test.parquet'
            _log.info('writing test data %s', fn)
            test.index.name = 'index'
            test.to_parquet(path / fn, compression='brotli')
>>
    The data set is taken to be registered (the lookup succeeds), and
    [xf.sample_users] / [xf.partition_users] to yield their samples; with
    [-p 0] and no [-u] the sampling loop passes [nusers = None] to lenskit,
    whose reaction lies outside this model. *)
Definition main (a : args) : M state unit :=
  let partitions := arg_p a in
  let nusers := arg_u a in
  let reps := arg_R a in
  if is_None partitions && is_None nusers then
    log ERROR "must specify at least 1 of -p and -u" ;;
    raise (SystemExit 2)
  else
    log INFO "locating data set %s" ;;
    log INFO "loading ratings" ;;
    log INFO "writing to %s" ;;
    if truthy partitions then
      (if truthy reps then log INFO "reps and partitions incompatible" else ret tt) ;;
      (if truthy nusers then log INFO "computing %d samples of %d users"
       else log INFO "computing %d partitions") ;;
      for_each (enumerate_from_1 (n_parts partitions)) (fun i =>
        log INFO "writing test set %d" ;;
        to_parquet (test_i i))
    else
      n <- py_max reps (PyInt 1) ;;
      for_each (range n) (fun i =>
        let fn := if truthy reps then test_i i else "test.parquet"%string in
        log INFO "writing test data %s" ;;
        to_parquet fn).

End SplitData.

(* ------------------------------------------------------------------------- *)
(** ** [compute-metrics.py] *)

Module ComputeMetrics.
Import Py.
Import String.
Local Open Scope string_scope.

Section Aggregator.

(** A per-user score frame, as [RecListAnalysis.compute] returns it. *)
Variable frame : Type.

(** [eval_run(data, runf)]: matches the file name against [recs-(\d+)]
    (a failed match raises [AttributeError] on [m.group]), reads the run and
    its truth file and scores them; it returns [(part, vals)] or raises. *)
Variable eval_run : String.string -> String.string -> exc + (String.string * frame).

(** The score artifacts on disk: output path and the concatenated table,
    keyed by run. *)
Definition state := list (String.string * list (String.string * frame)).

(** [Parallel(n_jobs=-1)(delayed(eval_run)(data, path) for path in run_files)]:
    every task is evaluated; if one raised, the first failure (in task order)
    is raised in the parent, otherwise the list of results is returned. *)
Fixpoint parallel (tasks : list (exc + (String.string * frame)))
    : M state (list (String.string * frame)) :=
  match tasks with
  | [] => ret []
  | inl e :: _ => raise e
  | inr v :: t => vs <- parallel t ;; ret (v :: vs)
  end.

(** [dict(pairs)]: a later key replaces an earlier one, keeping its place. *)
Fixpoint dict_insert (k : String.string) (v : frame)
    (d : list (String.string * frame)) : list (String.string * frame) :=
  match d with
  | [] => [(k, v)]
  | (k', v') :: t => if String.eqb k k' then (k, v) :: t else (k', v') :: dict_insert k v t
  end.

Definition dict (pairs : list (String.string * frame)) : list (String.string * frame) :=
  fold_left (fun d kv => dict_insert (fst kv) (snd kv) d) pairs [].

(** [pd.concat(res, names=['run'])]: raises [ValueError] on an empty dict. *)
Definition concat (res : list (String.string * frame))
    : M state (list (String.string * frame)) :=
  match res with
  | [] => raise ValueError
  | _ => ret res
  end.

(** [scores.to_parquet(outf, compression='brotli')] *)
Definition to_parquet (outf : String.string) (scores : list (String.string * frame))
    : M state unit :=
  fun s => (app s [(outf, scores)], inr tt).

(**
<<
def main(args):
    run_dir = Path('runs')
    data = args['DATA']
    algo = args['ALGO']
    outf = args.get('-o')
    if not outf:
        outf = run_dir / f'{data}-{algo}-scores.parquet'
    rd = run_dir / f'{data}-{algo}'
    run_files = list(rd.glob(f'recs-*.parquet'))
    with Parallel(n_jobs=-1, verbose=10) as loop:
        res = dict(loop(delayed(eval_run)(data, path) for path in run_files))
    scores = pd.concat(res, names=['run'])
    scores.to_parquet(outf, compression='brotli')
>>
    [run_files] is the result of the directory scan. *)
Definition main (data algo : String.string) (o : option String.string)
    (run_files : list String.string) : M state unit :=
  let outf := match o with
              | Some f => if String.eqb f "" then None else Some f
              | None => None
              end in
  let outf := match outf with
              | Some f => f
              | None => String.append "runs/" (String.append data
                          (String.append "-" (String.append algo "-scores.parquet")))
              end in
  pairs <- parallel (map (eval_run data) run_files) ;;
  let res := dict pairs in
  scores <- concat res ;;
  to_parquet outf scores.

End Aggregator.

(** [_fn_re = re.compile(r'recs-(\d+)\.parquet')] and [_fn_re.match(runf.name)]:
    [re.match] anchors at the start of the name only, [\d+] is greedy and
    group 1 is the digit run.  File names are ASCII here. *)
Fixpoint strip_prefix (pre s : String.string) : option String.string :=
  match pre, s with
  | EmptyString, _ => Some s
  | String c pre', String c' s' =>
      if Ascii.eqb c c' then strip_prefix pre' s' else None
  | String _ _, EmptyString => None
  end.

Definition is_digit (c : Ascii.ascii) : bool :=
  let n := Ascii.nat_of_ascii c in Nat.leb 48 n && Nat.leb n 57.

(** The longest run of digits at the front, and what follows it. *)
Fixpoint take_digits (s : String.string) : String.string * String.string :=
  match s with
  | EmptyString => (EmptyString, EmptyString)
  | String c t =>
      if is_digit c then
        let (ds, r) := take_digits t in (String c ds, r)
      else (EmptyString, s)
  end.

Definition fn_re_match (name : String.string) : option String.string :=
  match strip_prefix "recs-" name with
  | None => None
  | Some rest =>
      match take_digits rest with
      | (EmptyString, _) => None
      | (ds, r) =>
          match strip_prefix ".parquet" r with
          | Some _ => Some ds
          | None => None
          end
      end
  end.

(** The first lines of [eval_run]:
<<
    test_dir = Path('data-split') / data
    m = _fn_re.match(runf.name)
    part = m.group(1)
    ...
    test = pd.read_parquet(test_dir / f'test-{part}.parquet')
>>
    the truth file the run is scored against; [m.group] on a failed match
    ([m] is [None]) raises [AttributeError]. *)
Definition eval_run_test_path (data runf : String.string) : exc + String.string :=
  match fn_re_match runf with
  | None => inl AttributeError
  | Some part =>
      inr (String.append "data-split/" (String.append data (String.append "/"
             (String.append "test-" (String.append part ".parquet")))))
  end.

(** Python's [dict.get] / [d[k]] on the dict built above. *)
Definition dict_get {A} (d : list (String.string * A)) (k : String.string) : option A :=
  option_map snd (find (fun kv => String.eqb (fst kv) k) d).

(** A name made of ASCII digits only. *)
Fixpoint all_digits (s : String.string) : bool :=
  match s with
  | EmptyString => true
  | String c t => is_digit c && all_digits t
  end.

End ComputeMetrics.

(* ========================================================================= *)
(** * Properties of the metrics *)

Module MetricsProps.
Import Metrics.

(** Sanity checks on the scenario of the specification: one list
    [item 10 @ rank 1; item 11 @ rank 2] against the truth [{10}]. *)
Example rbp_scenario_a :
  rbp [mkRec 1 10; mkRec 2 11] [10%nat] (Some 1000%nat) PATIENCE = Some (4 # 25).
Proof. reflexivity. Qed.


(** *** Helper lemmas *)

Lemma isin_In (i : item) (truth : list item) :
  isin i truth = true <-> In i truth.
Proof.
  unfold isin; rewrite existsb_exists; split.
  - intros [x [Hx Heq]]. apply Nat.eqb_eq in Heq; subst; exact Hx.
  - intros H; exists i; split; [exact H | apply Nat.eqb_refl].
Qed.

Lemma qsum_app (xs ys : list Q) : qsum (xs ++ ys) == qsum xs + qsum ys.
Proof.
  induction xs as [|x xs IH]; simpl.
  - ring.
  - rewrite IH; ring.
Qed.

Lemma qsum_nonneg (xs : list Q) :
  (forall x, In x xs -> 0 <= x) -> 0 <= qsum xs.
Proof.
  induction xs as [|x xs IH]; simpl; intros H.
  - apply Qle_refl.
  - assert (0 <= x) by (apply H; left; reflexivity).
    assert (0 <= qsum xs) by (apply IH; intros y Hy; apply H; right; exact Hy).
    lra.
Qed.

Lemma discount_nonneg (p : Q) (r : Z) : 0 <= p -> 0 <= discount r p.
Proof. intros Hp; unfold discount; apply Qpower_0_le; exact Hp. Qed.

Lemma sum_seq_nth (g : option rec -> Q) (l : list rec) :
  qsum (map (fun i => g (nth_error l i)) (seq 0 (length l)))
  = qsum (map (fun r => g (Some r)) l).
Proof.
  revert g; induction l as [|x l IH]; intros g; simpl; [reflexivity|].
  f_equal. rewrite <- seq_shift, map_map. simpl.
  exact (IH g).
Qed.

Lemma sum_indicator (p : Q) (truth : list item) (l : list rec) :
  qsum (map (fun r => if in_dec Nat.eq_dec (ritem r) truth
                      then Qpower p (rank r) else 0) l)
  == qsum (map (fun r => discount r p)
             (map rank (filter (fun r => isin (ritem r) truth) l))).
Proof.
  induction l as [|x l IH]; simpl; [reflexivity|].
  destruct (in_dec Nat.eq_dec (ritem x) truth) as [Hin|Hout].
  - apply isin_In in Hin; rewrite Hin; simpl. rewrite IH; reflexivity.
  - destruct (isin (ritem x) truth) eqn:E.
    + apply isin_In in E; contradiction.
    + rewrite IH; ring.
Qed.

Lemma filter_none {A} (f : A -> bool) (l : list A) :
  (forall x, In x l -> f x = false) -> filter f l = [].
Proof.
  induction l as [|x l IH]; simpl; intros H; [reflexivity|].
  rewrite (H x (or_introl eq_refl)). apply IH. intros y Hy; apply H; right; exact Hy.
Qed.

(** [patience^r] is [(1/patience)^(-r)]. *)
Lemma Qpower_inv_opp (p : Q) (r : Z) : Qpower p r == Qpower (/ p) (- r).
Proof.
  rewrite Qinv_power, Qpower_opp, Qinv_involutive; reflexivity.
Qed.

Lemma firstn_prefix {A} (l : list A) (k1 k2 : nat) :
  (k1 <= k2)%nat -> exists rest, firstn k2 l = firstn k1 l ++ rest.
Proof.
  revert k1 k2; induction l as [|x l IH]; intros k1 k2 Hk.
  - exists []; rewrite !firstn_nil; reflexivity.
  - destruct k1 as [|k1].
    + exists (firstn k2 (x :: l)); reflexivity.
    + destruct k2 as [|k2]; [lia|].
      destruct (IH k1 k2 ltac:(lia)) as [rest Hr].
      exists rest; simpl; rewrite Hr; reflexivity.
Qed.

Lemma discount_antitone (p : Q) (m r : Z) :
  0 < p < 1 -> (m <= r)%Z -> discount r p <= discount m p.
Proof.
  intros [H0 H1] Hmr; unfold discount.
  rewrite (Qpower_inv_opp p m), (Qpower_inv_opp p r).
  apply Qpower_le_compat_l; [lia|].
  apply Qlt_le_weak.
  setoid_replace 1 with (/ 1) by reflexivity.
  apply (proj1 (Qinv_lt_contravar p 1 H0 ltac:(reflexivity))); exact H1.
Qed.

Lemma strictly_increasing_sorted (rs : list Z) :
  strictly_increasing rs = true -> StronglySorted Z.lt rs.
Proof.
  intros H. apply Sorted_StronglySorted; [intros a b c; lia|].
  induction rs as [|x rs IH]; [constructor|].
  destruct rs as [|y rs]; [repeat constructor|].
  simpl in H. apply andb_true_iff in H as [Hxy Ht].
  constructor; [exact (IH Ht)|]. constructor. apply Z.ltb_lt; exact Hxy.
Qed.

Lemma distinct_NoDup (xs : list item) : distinct xs = true -> NoDup xs.
Proof.
  induction xs as [|x xs IH]; simpl; intros H; [constructor|].
  apply andb_true_iff in H as [Hn Ht]. constructor; [|exact (IH Ht)].
  intros Hin. apply negb_true_iff in Hn.
  assert (existsb (Nat.eqb x) xs = true) by (apply isin_In; exact Hin).
  congruence.
Qed.

Lemma StronglySorted_firstn {A} (R : A -> A -> Prop) (k : nat) (l : list A) :
  StronglySorted R l -> StronglySorted R (firstn k l).
Proof.
  revert l; induction k as [|k IH]; intros l H; [constructor|].
  destruct l as [|x l]; [constructor|].
  apply StronglySorted_inv in H as [Hs Hf]. simpl. constructor.
  - apply IH; exact Hs.
  - rewrite Forall_forall in *. intros y Hy. apply Hf.
    rewrite <- (firstn_skipn k l). apply in_or_app; left; exact Hy.
Qed.

Lemma NoDup_map_firstn {A B} (g : A -> B) (k : nat) (l : list A) :
  NoDup (map g l) -> NoDup (map g (firstn k l)).
Proof.
  intros H. rewrite <- (firstn_skipn k l), map_app in H.
  apply NoDup_app_remove_r in H. exact H.
Qed.

Lemma NoDup_map_filter {A B} (g : A -> B) (f : A -> bool) (l : list A) :
  NoDup (map g l) -> NoDup (map g (filter f l)).
Proof.
  induction l as [|x l IH]; simpl; intros H; [constructor|].
  inversion H as [|? ? Hx Hl]; subst.
  destruct (f x); simpl; [constructor|]; try apply IH; try exact Hl.
  intros Hin. apply Hx. apply in_map_iff in Hin as [y [Hy Hyin]].
  apply filter_In in Hyin as [Hyin _]. rewrite <- Hy. apply in_map; exact Hyin.
Qed.

(** A filtered sublist of a list with strictly increasing ranks, all at
    least [m], is bounded by the discounts of the consecutive ranks from [m]. *)
Lemma sum_sorted_bound (p : Q) (f : rec -> bool) (recs : list rec) (m : nat) :
  0 < p < 1 ->
  StronglySorted Z.lt (map rank recs) ->
  Forall (fun r => (Z.of_nat m <= r)%Z) (map rank recs) ->
  qsum (map (fun r => discount r p) (map rank (filter f recs)))
  <= qsum (map (fun i => Qpower p (Z.of_nat i)) (seq m (length (filter f recs)))).
Proof.
  intros Hp. revert m; induction recs as [|x recs IH]; intros m Hs Hm; simpl.
  - apply Qle_refl.
  - simpl in Hs, Hm. apply StronglySorted_inv in Hs as [Hs Hlt].
    inversion Hm as [|? ? Hxm Hrest]; subst.
    destruct (f x); simpl.
    + assert (Hd : discount (rank x) p <= Qpower p (Z.of_nat m))
        by (apply (discount_antitone p (Z.of_nat m) (rank x) Hp Hxm)).
      assert (Hi : qsum (map (fun r => discount r p) (map rank (filter f recs)))
                   <= qsum (map (fun i => Qpower p (Z.of_nat i))
                                (seq (S m) (length (filter f recs))))).
      { apply IH; [exact Hs|]. rewrite Forall_forall in *. intros y Hy.
        specialize (Hlt y Hy). lia. }
      lra.
    + apply IH; [exact Hs|]. exact Hrest.
Qed.

Lemma qsum_seq_mono (p : Q) (n1 n2 : nat) :
  0 <= p -> (n1 <= n2)%nat ->
  qsum (map (fun i => Qpower p (Z.of_nat i)) (seq 1 n1))
  <= qsum (map (fun i => Qpower p (Z.of_nat i)) (seq 1 n2)).
Proof.
  intros Hp Hn. replace n2 with (n1 + (n2 - n1))%nat by lia.
  rewrite seq_app, map_app, qsum_app.
  assert (0 <= qsum (map (fun i => Qpower p (Z.of_nat i)) (seq (1 + n1) (n2 - n1)))).
  { apply qsum_nonneg. intros x Hx. apply in_map_iff in Hx as [i [<- _]].
    apply Qpower_0_le; exact Hp. }
  lra.
Qed.

(** *** The bulk form, step by step *)

Lemma bulk_truncate_filter (k : option nat) (recs : list brow) :
  bulk_truncate k recs = filter (trunc_pred k) recs.
Proof. destruct k; simpl; [reflexivity|]. symmetry; apply filter_true. Qed.

Lemma existsb_filter {A} (f : A -> bool) (l : list A) :
  existsb f l = match filter f l with [] => false | _ => true end.
Proof.
  induction l as [|x l IH]; simpl; [reflexivity|].
  destruct (f x); simpl; [reflexivity|exact IH].
Qed.

Lemma existsb_map_comp {A B} (f : B -> bool) (g : A -> B) (l : list A) :
  existsb f (map g l) = existsb (fun x => f (g x)) l.
Proof. induction l as [|x l IH]; simpl; [reflexivity|]. rewrite IH; reflexivity. Qed.

Lemma filter_filter_and {A} (f g : A -> bool) (l : list A) :
  filter f (filter g l) = filter (fun x => g x && f x) l.
Proof.
  induction l as [|x l IH]; simpl; [reflexivity|].
  destruct (g x); simpl; [destruct (f x); simpl; rewrite IH|rewrite IH]; reflexivity.
Qed.

Lemma find_keyed (g : nat -> Q) (keys : list nat) (r : nat) :
  find (fun kv => Nat.eqb (fst kv) r) (map (fun key => (key, g key)) keys)
  = if existsb (fun key => Nat.eqb key r) keys then Some (r, g r) else None.
Proof.
  induction keys as [|x keys IH]; simpl; [reflexivity|].
  destruct (Nat.eqb x r) eqn:E; simpl; [|exact IH].
  apply Nat.eqb_eq in E; subst; reflexivity.
Qed.

Lemma existsb_nodup (r : nat) (keys : list nat) :
  existsb (fun key => Nat.eqb key r) (nodup Nat.eq_dec keys)
  = existsb (fun key => Nat.eqb key r) keys.
Proof.
  apply eq_true_iff_eq. rewrite !existsb_exists. split.
  - intros [x [Hx E]]. exists x; split; [apply nodup_In in Hx; exact Hx|exact E].
  - intros [x [Hx E]]. exists x; split; [apply nodup_In; exact Hx|exact E].
Qed.

(** The value the bulk form reports for one list: the sum over the joined
    rows of that list, if there is any. *)
Lemma bulk_get (recs : list brow) (truth : list trow) (k : option nat) (p : Q) (rid : nat) :
  let good := join_inner (bulk_truncate k recs) truth in
  series_get (_bulk_rbp recs truth k p) rid
  = if existsb (fun b => Nat.eqb (LKRecID b) rid) good
    then Some (qsum (map (fun b => discount (brank b) p)
                         (filter (fun b => Nat.eqb (LKRecID b) rid) good)) * (1 - p))
    else None.
Proof.
  intros good. unfold series_get, _bulk_rbp, groupby_sum. fold good.
  rewrite map_map. simpl.
  rewrite (find_keyed (fun key => qsum (map snd (filter (fun kv => Nat.eqb (fst kv) key)
            (map (fun r => (LKRecID r, discount (brank r) p)) good))) * (1 - p))).
  rewrite existsb_nodup, !existsb_map_comp. simpl.
  destruct (existsb (fun b => Nat.eqb (LKRecID b) rid) good); [|reflexivity].
  f_equal. rewrite filter_map_swap, !map_map. reflexivity.
Qed.

Lemma trows_distinct_filter_key (truth : list trow) (x : trow) :
  trows_distinct truth = true ->
  filter (fun t => trow_eqb t x) truth = [] \/ filter (fun t => trow_eqb t x) truth = [x].
Proof.
  induction truth as [|t truth IH]; simpl; intros H; [left; reflexivity|].
  apply andb_true_iff in H as [Hn Ht]. apply negb_true_iff in Hn.
  destruct (trow_eqb t x) eqn:E.
  - right. unfold trow_eqb in E. apply andb_true_iff in E as [E1 E2].
    apply Nat.eqb_eq in E1, E2. destruct t, x; simpl in *; subst.
    f_equal. apply filter_none. intros y Hy.
    destruct (trow_eqb y _) eqn:Ey; [|reflexivity].
    exfalso. assert (existsb (trow_eqb (mkTRow tLKTruthID1 titem1)) truth = true).
    { apply existsb_exists. exists y; split; [exact Hy|].
      unfold trow_eqb in *. apply andb_true_iff in Ey as [Ey1 Ey2].
      simpl in *. rewrite Nat.eqb_sym, Ey1, Nat.eqb_sym, Ey2. reflexivity. }
    congruence.
  - apply IH; exact Ht.
Qed.

(** With distinct truth keys the inner join keeps each recommendation row at
    most once. *)
Lemma join_inner_filter (recs : list brow) (truth : list trow) :
  trows_distinct truth = true ->
  join_inner recs truth = filter (join_hit truth) recs.
Proof.
  intros Hd. induction recs as [|b recs IH]; [reflexivity|].
  unfold join_inner in *. simpl. rewrite IH. unfold join_hit.
  rewrite existsb_filter.
  assert (Hf : filter (fun t => Nat.eqb (tLKTruthID t) (LKTruthID b)
                                && Nat.eqb (titem t) (bitem b)) truth
               = filter (fun t => trow_eqb t (mkTRow (LKTruthID b) (bitem b))) truth)
    by (apply filter_ext; reflexivity).
  rewrite Hf.
  destruct (trows_distinct_filter_key truth (mkTRow (LKTruthID b) (bitem b)) Hd) as [-> | ->];
    reflexivity.
Qed.

Lemma join_hit_user_truth (truth : list trow) (b : brow) (tid : nat) :
  LKTruthID b = tid -> join_hit truth b = isin (bitem b) (user_truth truth tid).
Proof.
  intros <-. unfold join_hit, isin, user_truth.
  rewrite existsb_map_comp. induction truth as [|t truth IH]; simpl; [reflexivity|].
  destruct (Nat.eqb (tLKTruthID t) (LKTruthID b)) eqn:E; simpl.
  - rewrite IH, Nat.eqb_sym. reflexivity.
  - exact IH.
Qed.

(** On a list ranked [s, s+1, ...], the positional cut keeps the rows of rank
    at most [k]. *)
Lemma firstn_ranks (l : list rec) (s : Z) (k : nat) :
  ranks_from s l = true ->
  firstn (Z.to_nat (Z.of_nat k + 1 - s)) l
  = filter (fun r => Z.leb (rank r) (Z.of_nat k)) l.
Proof.
  revert s; induction l as [|x l IH]; intros s H; simpl.
  - apply firstn_nil.
  - apply andb_true_iff in H as [Hx Ht]. apply Z.eqb_eq in Hx. rewrite Hx.
    specialize (IH (s + 1)%Z Ht).
    destruct (Z.leb s (Z.of_nat k)) eqn:E.
    + apply Z.leb_le in E.
      replace (Z.to_nat (Z.of_nat k + 1 - s)) with (S (Z.to_nat (Z.of_nat k + 1 - (s + 1)))) by lia.
      simpl. rewrite IH. reflexivity.
    + apply Z.leb_gt in E.
      replace (Z.to_nat (Z.of_nat k + 1 - s)) with 0%nat by lia.
      replace (Z.to_nat (Z.of_nat k + 1 - (s + 1))) with 0%nat in IH by lia.
      exact IH.
Qed.

Lemma truncate_user_recs (recs : list brow) (rid : nat) (k : option nat) :
  ranks_from 1 (user_recs recs rid) = true ->
  truncate k (user_recs recs rid)
  = map (fun b => mkRec (brank b) (bitem b))
        (filter (trunc_pred k) (filter (fun b => Nat.eqb (LKRecID b) rid) recs)).
Proof.
  intros Hr. destruct k as [k|]; simpl.
  - pose proof (firstn_ranks _ 1 k Hr) as Hf.
    replace (Z.to_nat (Z.of_nat k + 1 - 1)) with k in Hf by lia.
    rewrite Hf. unfold user_recs. rewrite filter_map_swap. reflexivity.
  - rewrite filter_true. reflexivity.
Qed.

(** *** Claims about the scalar form *)

(** C4: for every recommendation list, cutoff and patience, an empty truth
    set makes the scalar RBP return the missing marker ([None]). *)
Theorem rbp_empty_truth_missing (recs : list rec) (k : option nat) (patience : Q) :
  rbp recs [] k patience = None.
Proof. reflexivity. Qed.

(** C5: with a nonempty truth set, the scalar RBP truncates the list to its
    first [k] entries (when [k] is given) and returns [(1 - patience)] times
    the sum of [patience^rank] over exactly the retained entries whose item is
    in the truth set. *)
Theorem rbp_scalar_formula (recs : list rec) (truth : list item) (k : option nat)
    (patience : Q) :
  truth <> [] ->
  exists s, rbp recs truth k patience = Some s
            /\ s == rbp_spec_score recs truth k patience.
Proof.
  intros Hne. unfold rbp, rbp_spec_score.
  destruct (Nat.eqb (length truth) 0) eqn:E.
  { apply Nat.eqb_eq, length_zero_iff_nil in E; contradiction. }
  eexists; split; [reflexivity|].
  set (g := fun o : option rec => match o with
            | Some r => if in_dec Nat.eq_dec (ritem r) truth
                        then Qpower patience (rank r) else 0
            | None => 0 end).
  assert (Hseq : qsum (map (fun i => match nth_error recs i with
                      | Some r => if in_dec Nat.eq_dec (ritem r) truth
                                  then Qpower patience (rank r) else 0
                      | None => 0
                      end)
                      (seq 0 (match k with Some k => Nat.min k (length recs)
                                          | None => length recs end)))
                 = qsum (map (fun i => g (nth_error (truncate k recs) i))
                             (seq 0 (length (truncate k recs))))).
  { destruct k as [k|]; simpl; [|reflexivity].
    rewrite length_firstn. f_equal. apply map_ext_in.
    intros i Hi. apply in_seq in Hi.
    rewrite nth_error_firstn.
    replace (Nat.ltb i k) with true by (symmetry; apply Nat.ltb_lt; lia).
    reflexivity. }
  rewrite Hseq, sum_seq_nth. unfold g.
  rewrite sum_indicator. ring.
Qed.

(** C6: for a patience in (0,1), [discount] is [patience^rank], is 1 at rank
    0, and is strictly decreasing in the rank. *)
Theorem discount_contract (patience : Q) :
  0 < patience < 1 ->
  (forall r, discount r patience = Qpower patience r)
  /\ discount 0 patience == 1
  /\ (forall r1 r2, (r1 < r2)%Z -> discount r2 patience < discount r1 patience).
Proof.
  intros [H0 H1]. split; [reflexivity|]. split; [reflexivity|].
  intros r1 r2 Hlt. unfold discount.
  rewrite (Qpower_inv_opp patience r1), (Qpower_inv_opp patience r2).
  apply Qpower_lt_compat_l; [lia|].
  setoid_replace 1 with (/ 1) by reflexivity.
  apply (proj1 (Qinv_lt_contravar patience 1 H0 ltac:(reflexivity))); exact H1.
Qed.

Lemma discount_contract_witness :
  (0 < PATIENCE < 1)
  /\ ((forall r, discount r PATIENCE = Qpower PATIENCE r)
      /\ discount 0 PATIENCE == 1
      /\ (forall r1 r2, (r1 < r2)%Z -> discount r2 PATIENCE < discount r1 PATIENCE)).
Proof.
  assert (H : 0 < PATIENCE < 1) by (split; reflexivity).
  split; [exact H | apply (discount_contract PATIENCE H)].
Defined.

(** C10: with a nonempty truth set and no retained entry in it, the scalar
    RBP returns the defined score 0 (not the missing marker). *)
Theorem rbp_no_hit_zero (recs : list rec) (truth : list item) (k : option nat)
    (patience : Q) :
  truth <> [] ->
  (forall r, In r (truncate k recs) -> ~ In (ritem r) truth) ->
  exists s, rbp recs truth k patience = Some s /\ s == 0.
Proof.
  intros Hne Hno. unfold rbp.
  destruct (Nat.eqb (length truth) 0) eqn:E.
  { apply Nat.eqb_eq, length_zero_iff_nil in E; contradiction. }
  eexists; split; [reflexivity|].
  replace (filter (fun r => isin (ritem r) truth) (truncate k recs)) with (@nil rec).
  { simpl. ring. }
  symmetry. apply filter_none. intros r Hr.
  destruct (isin (ritem r) truth) eqn:Ei; [|reflexivity].
  apply isin_In in Ei. exfalso; exact (Hno r Hr Ei).
Qed.

Lemma rbp_no_hit_zero_witness :
  ([5%nat] <> [])
  /\ (forall r, In r (truncate (Some 1%nat) [mkRec 1 7; mkRec 2 5]) -> ~ In (ritem r) [5%nat])
  /\ (exists s, rbp [mkRec 1 7; mkRec 2 5] [5%nat] (Some 1%nat) PATIENCE = Some s /\ s == 0).
Proof.
  assert (H1 : [5%nat] <> []) by discriminate.
  assert (H2 : forall r, In r (truncate (Some 1%nat) [mkRec 1 7; mkRec 2 5]) -> ~ In (ritem r) [5%nat]).
  { simpl. intros r [Hr|[]] [Hi|[]]. subst r. simpl in Hi. discriminate. }
  split; [exact H1|]. split; [exact H2|].
  exact (rbp_no_hit_zero _ _ _ _ H1 H2).
Defined.

(** C7: with a nonempty truth set and a patience in (0,1), the score with
    cutoff [k1] is at most the score with a larger cutoff [k2]. *)
Theorem rbp_cutoff_monotone (recs : list rec) (truth : list item) (patience : Q)
    (k1 k2 : nat) (s1 s2 : Q) :
  0 < patience < 1 ->
  (k1 < k2)%nat ->
  rbp recs truth (Some k1) patience = Some s1 ->
  rbp recs truth (Some k2) patience = Some s2 ->
  s1 <= s2.
Proof.
  intros Hp Hk E1 E2. unfold rbp in E1, E2. simpl in E1, E2.
  destruct (Nat.eqb (length truth) 0); [discriminate|].
  injection E1 as <-. injection E2 as <-.
  destruct (firstn_prefix recs k1 k2 ltac:(lia)) as [rest ->].
  rewrite filter_app, !map_app, qsum_app.
  set (f := fun r : rec => isin (ritem r) truth).
  assert (0 <= qsum (map (fun r => discount r patience) (map rank (filter f rest)))).
  { apply qsum_nonneg. intros x Hx. rewrite map_map in Hx.
    apply in_map_iff in Hx as [y [<- _]]. apply discount_nonneg; lra. }
  apply Qmult_le_compat_r; lra.
Qed.

Lemma rbp_cutoff_monotone_witness :
  (0 < PATIENCE < 1) /\ (1 < 2)%nat
  /\ rbp [mkRec 1 7; mkRec 2 5] [5%nat] (Some 1%nat) PATIENCE = Some (0 * (1 - PATIENCE))
  /\ rbp [mkRec 1 7; mkRec 2 5] [5%nat] (Some 2%nat) PATIENCE
     = Some ((Qpower PATIENCE 2 + 0) * (1 - PATIENCE))
  /\ 0 * (1 - PATIENCE) <= (Qpower PATIENCE 2 + 0) * (1 - PATIENCE).
Proof.
  assert (Hp : 0 < PATIENCE < 1) by (split; reflexivity).
  assert (Hk : (1 < 2)%nat) by lia.
  assert (E1 : rbp [mkRec 1 7; mkRec 2 5] [5%nat] (Some 1%nat) PATIENCE
               = Some (0 * (1 - PATIENCE))) by reflexivity.
  assert (E2 : rbp [mkRec 1 7; mkRec 2 5] [5%nat] (Some 2%nat) PATIENCE
               = Some ((Qpower PATIENCE 2 + 0) * (1 - PATIENCE))) by reflexivity.
  split; [exact Hp|]. split; [exact Hk|]. split; [exact E1|]. split; [exact E2|].
  exact (rbp_cutoff_monotone _ _ _ _ _ _ _ Hp Hk E1 E2).
Defined.

(** C8: on a well-formed list (ranks from 1, strictly increasing, no
    duplicate item) and a patience in (0,1), every defined scalar RBP score is
    at most [rbp_max(|truth|)]. *)
Theorem rbp_le_rbp_max (recs : list rec) (truth : list item) (k : option nat)
    (patience s : Q) :
  0 < patience < 1 ->
  well_formed_list recs = true ->
  rbp recs truth k patience = Some s ->
  s <= rbp_max (length truth) patience.
Proof.
  intros Hp Hwf E. unfold well_formed_list in Hwf.
  apply andb_true_iff in Hwf as [Hwf Hd]. apply andb_true_iff in Hwf as [Hhd Hinc].
  apply distinct_NoDup in Hd. apply strictly_increasing_sorted in Hinc.
  unfold rbp in E. destruct (Nat.eqb (length truth) 0); [discriminate|].
  injection E as <-. unfold rbp_max.
  set (l := truncate k recs).
  set (f := fun r : rec => isin (ritem r) truth).
  assert (Hs : StronglySorted Z.lt (map rank l)).
  { unfold l; destruct k; simpl; [rewrite <- firstn_map; apply StronglySorted_firstn|]; exact Hinc. }
  assert (Hge : Forall (fun r => (Z.of_nat 1 <= r)%Z) (map rank l)).
  { assert (Hall : Forall (fun r => (1 <= r)%Z) (map rank recs)).
    { destruct recs as [|x recs]; [constructor|]. simpl in Hhd, Hinc |- *.
      apply Z.eqb_eq in Hhd. apply StronglySorted_inv in Hinc as [_ Hf].
      constructor; [lia|]. rewrite Forall_forall in *. intros y Hy.
      specialize (Hf y Hy). lia. }
    unfold l; destruct k; simpl; [|exact Hall].
    rewrite <- firstn_map. rewrite Forall_forall in *. intros y Hy.
    apply Hall. rewrite <- (firstn_skipn n (map rank recs)). apply in_or_app; left; exact Hy. }
  assert (Hb := sum_sorted_bound patience f l 1 Hp Hs Hge).
  assert (Hlen : (length (filter f l) <= length truth)%nat).
  { rewrite <- (length_map ritem). apply NoDup_incl_length.
    - apply NoDup_map_filter. unfold l; destruct k; simpl; [apply NoDup_map_firstn|]; exact Hd.
    - intros i Hi. apply in_map_iff in Hi as [r [<- Hr]].
      apply filter_In in Hr as [_ Hr]. apply isin_In; exact Hr. }
  assert (Hm := qsum_seq_mono patience _ _ ltac:(lra) Hlen).
  apply Qmult_le_compat_r; lra.
Qed.

Lemma rbp_le_rbp_max_witness :
  (0 < PATIENCE < 1)
  /\ well_formed_list [mkRec 1 7; mkRec 2 5] = true
  /\ rbp [mkRec 1 7; mkRec 2 5] [5%nat] None PATIENCE
     = Some ((Qpower PATIENCE 2 + 0) * (1 - PATIENCE))
  /\ (Qpower PATIENCE 2 + 0) * (1 - PATIENCE) <= rbp_max 1 PATIENCE.
Proof.
  assert (Hp : 0 < PATIENCE < 1) by (split; reflexivity).
  assert (Hw : well_formed_list [mkRec 1 7; mkRec 2 5] = true) by reflexivity.
  assert (E : rbp [mkRec 1 7; mkRec 2 5] [5%nat] None PATIENCE
              = Some ((Qpower PATIENCE 2 + 0) * (1 - PATIENCE))) by reflexivity.
  split; [exact Hp|]. split; [exact Hw|]. split; [exact E|].
  exact (rbp_le_rbp_max _ _ _ _ _ Hp Hw E).
Defined.

Lemma rbp_scalar_formula_witness :
  ([5%nat] <> [])
  /\ exists s, rbp [mkRec 1 7; mkRec 2 5] [5%nat] (Some 1%nat) PATIENCE = Some s
               /\ s == rbp_spec_score [mkRec 1 7; mkRec 2 5] [5%nat] (Some 1%nat) PATIENCE.
Proof.
  assert (H : [5%nat] <> []) by discriminate.
  split; [exact H | exact (rbp_scalar_formula _ _ _ _ H)].
Defined.

(** *** Bulk form against scalar form *)

(** C1 (code defect): [_bulk_rbp] is registered by [@bulk_impl(rbp)] as the
    bulk form of [rbp], yet they disagree.  List 0 recommends item 10 at
    rank 1, its truth group 0 holds only item 20: the scalar form scores the
    list 0, the bulk form has no entry for it (the inner join drops it), so
    a zero score becomes a missing one. *)
Lemma bulk_rbp_scalar_counterexample :
  series_get (_bulk_rbp [mkBRow 0 0 1 10] [mkTRow 0 20] None PATIENCE) 0%nat = None
  /\ rbp (user_recs [mkBRow 0 0 1 10] 0%nat) (user_truth [mkTRow 0 20] 0%nat) None PATIENCE
     = Some (0 * (1 - PATIENCE))
  /\ series_get (_bulk_rbp [mkBRow 0 0 1 10] [mkTRow 0 20] None PATIENCE) 0%nat
     <> rbp (user_recs [mkBRow 0 0 1 10] 0%nat) (user_truth [mkTRow 0 20] 0%nat) None PATIENCE.
Proof.
  split; [reflexivity|]. split; [reflexivity|]. vm_compute. discriminate.
Qed.

(** With ranks that skip a value the two cuts differ as well: the list
    [rank 1, rank 3] cut at 2 keeps both rows positionally ([iloc]) but only
    the first by rank. *)
Example bulk_rbp_rank_gap :
  series_get (_bulk_rbp [mkBRow 0 0 1 10; mkBRow 0 0 3 11]
                        [mkTRow 0 10; mkTRow 0 11] (Some 2%nat) PATIENCE) 0%nat
  <> rbp (user_recs [mkBRow 0 0 1 10; mkBRow 0 0 3 11] 0%nat)
         (user_truth [mkTRow 0 10; mkTRow 0 11] 0%nat) (Some 2%nat) PATIENCE.
Proof. vm_compute. intros H. injection H as H. discriminate. Qed.

(** Where the two forms do agree: for a list [rid] scored against truth
    group [tid], with distinct truth keys and ranks [1..n] in list order,
    the bulk form has an entry for [rid] exactly when some retained entry is
    relevant, and that entry equals the scalar RBP of the list's slice;
    otherwise the bulk form has no entry. *)
Theorem bulk_rbp_agrees_on_hits (recs : list brow) (truth : list trow)
    (k : option nat) (p : Q) (rid tid : nat) :
  trows_distinct truth = true ->
  (forall b, In b recs -> LKRecID b = rid -> LKTruthID b = tid) ->
  ranks_from 1 (user_recs recs rid) = true ->
  series_get (_bulk_rbp recs truth k p) rid
  = if has_hit (user_recs recs rid) (user_truth truth tid) k
    then rbp (user_recs recs rid) (user_truth truth tid) k p
    else None.
Proof.
  intros Hd Htid Hr.
  rewrite bulk_get. cbv zeta.
  rewrite join_inner_filter by exact Hd. rewrite bulk_truncate_filter.
  set (hitU := fun b : brow => isin (bitem b) (user_truth truth tid)).
  set (G := filter (fun b => (Nat.eqb (LKRecID b) rid && trunc_pred k b) && hitU b) recs).
  assert (HG : filter (fun b => Nat.eqb (LKRecID b) rid)
                 (filter (join_hit truth) (filter (trunc_pred k) recs)) = G).
  { rewrite !filter_filter_and. unfold G. apply filter_ext_in. intros b Hb.
    destruct (Nat.eqb (LKRecID b) rid) eqn:E; simpl.
    - apply Nat.eqb_eq in E. unfold hitU.
      rewrite (join_hit_user_truth truth b tid (Htid b Hb E)).
      destruct (trunc_pred k b), (isin (bitem b) (user_truth truth tid)); reflexivity.
    - destruct (trunc_pred k b), (join_hit truth b); reflexivity. }
  assert (HU : filter hitU (filter (trunc_pred k) (filter (fun b => Nat.eqb (LKRecID b) rid) recs)) = G).
  { rewrite !filter_filter_and. apply filter_ext. intros b. apply andb_assoc. }
  unfold has_hit, rbp. rewrite (truncate_user_recs recs rid k Hr).
  rewrite existsb_map_comp. simpl. fold hitU.
  rewrite (existsb_filter hitU), HU, (existsb_filter (fun b => Nat.eqb (LKRecID b) rid)), HG.
  destruct G as [|g G'] eqn:EG; [reflexivity|].
  assert (Hne : Nat.eqb (length (user_truth truth tid)) 0 = false).
  { assert (Hg : In g G) by (rewrite EG; left; reflexivity).
    unfold G in Hg. apply filter_In in Hg as [_ Hg]. apply andb_true_iff in Hg as [_ Hg].
    unfold hitU in Hg. apply isin_In in Hg.
    destruct (user_truth truth tid); [contradiction|reflexivity]. }
  rewrite Hne. f_equal. f_equal.
  rewrite filter_map_swap, !map_map. simpl. fold hitU. rewrite HU. reflexivity.
Qed.

End MetricsProps.

(* ========================================================================= *)
(** * Properties of the splitter *)

Module SplitProps.
Import Py SplitData.
Import String.
Local Open Scope string_scope.

(** The three records logged before the split itself. *)
Definition preamble : list (level * string) :=
  [(INFO, "locating data set %s"); (INFO, "loading ratings"); (INFO, "writing to %s")].

(** A loop whose body logs one record and writes one file. *)
Lemma for_each_writes (l : list Z) (body : Z -> M state unit) (g : Z -> string)
    (e : level * string) (s : state) :
  (forall i s, body i s = (mkState (app (logs s) [e]) (app (files s) [g i]), inr tt)) ->
  for_each l body s
  = (mkState (app (logs s) (map (fun _ => e) l)) (app (files s) (map g l)), inr tt).
Proof.
  intros Hb. revert s; induction l as [|i l IH]; intros s; simpl.
  - destruct s; simpl; rewrite !app_nil_r; reflexivity.
  - unfold bind. rewrite Hb. rewrite IH. simpl. rewrite <- !app_assoc. reflexivity.
Qed.

(** C2 (code defect): in repeated-sampling mode without [-R], [reps] is
    [None] and [range(max(reps, 1))] raises [TypeError]; no split is made and
    no [test.parquet] is written. *)
Theorem split_sampling_without_reps_raises (nusers : Z) :
  main (mkArgs PyNone (PyInt nusers) PyNone) init
  = (mkState preamble [], inl TypeError).
Proof. reflexivity. Qed.

(** With [-R r] ([r >= 1]) the sampling branch writes [test-0.parquet] ...
    [test-(r-1).parquet]. *)
Lemma split_sampling_with_reps (nusers r : Z) :
  (1 <= r)%Z ->
  main (mkArgs PyNone (PyInt nusers) (PyInt r)) init
  = (mkState (app preamble (map (fun _ => (INFO, "writing test data %s")) (range r)))
             (map test_i (range r)), inr tt).
Proof.
  intros Hr. unfold main. cbn [arg_p arg_u arg_R is_None andb truthy].
  unfold bind at 1 2 3 4. cbn - [for_each range test_i].
  replace (Z.max r 1) with r by lia.
  assert (Er : negb (Z.eqb r 0) = true) by (apply negb_true_iff, Z.eqb_neq; lia).
  rewrite Er.
  rewrite (for_each_writes (range r) _ test_i (INFO, "writing test data %s")) by reflexivity.
  reflexivity.
Qed.

(** Partition mode, whatever [-u] and [-R] hold. *)
Lemma split_partition_mode (P : Z) (nusers reps : pyval) :
  P <> 0%Z ->
  main (mkArgs (PyInt P) nusers reps) init
  = (mkState (app preamble
               (app (if truthy reps then [(INFO, "reps and partitions incompatible")] else [])
                 (app [if truthy nusers then (INFO, "computing %d samples of %d users")
                       else (INFO, "computing %d partitions")]
                   (map (fun _ => (INFO, "writing test set %d"))
                        (enumerate_from_1 (Z.to_nat P))))))
             (map test_i (enumerate_from_1 (Z.to_nat P))), inr tt).
Proof.
  intros HP. unfold main. cbn [arg_p arg_u arg_R is_None andb n_parts].
  assert (Ep : truthy (PyInt P) = true) by (apply negb_true_iff, Z.eqb_neq; exact HP).
  rewrite Ep.
  destruct (truthy reps), (truthy nusers); cbn - [for_each enumerate_from_1 test_i];
    rewrite (for_each_writes _ _ test_i (INFO, "writing test set %d")) by reflexivity;
    reflexivity.
Qed.



End SplitProps.

(* ========================================================================= *)
(** * Properties of the aggregator *)

Module AggregateProps.
Import Py ComputeMetrics.
Import String.
Local Open Scope string_scope.

(** A sample [eval_run]: a file name outside the [recs-(\d+)] pattern fails. *)
Definition sample_eval (data f : string) : exc + (string * nat) :=
  if String.eqb f "recs-x.parquet" then inl AttributeError else inr ("1", 0%nat).

Lemma parallel_failure (frame : Type) (tasks : list (exc + (string * frame)))
    (s : state frame) :
  (exists e, In (inl e) tasks) ->
  exists e, parallel frame tasks s = (s, inl e).
Proof.
  induction tasks as [|t tasks IH]; simpl; intros [e He]; [contradiction|].
  destruct He as [Ht|He].
  - subst t. exists e; reflexivity.
  - destruct t as [e'|v].
    + exists e'; reflexivity.
    + destruct (IH (ex_intro _ e He)) as [e'' Ee]. exists e''.
      unfold bind. rewrite Ee. reflexivity.
Qed.

(** C3: if evaluating one run file raises, the aggregation raises and the
    files on disk are left as they were: the score table is written only
    once every per-run task has succeeded. *)
Theorem aggregate_all_or_nothing (frame : Type)
    (eval_run : string -> string -> exc + (string * frame))
    (data algo : string) (o : option string) (run_files : list string)
    (disk : state frame) :
  (exists f e, In f run_files /\ eval_run data f = inl e) ->
  exists e, main frame eval_run data algo o run_files disk = (disk, inl e).
Proof.
  intros [f [e [Hin He]]]. unfold main.
  assert (Hf : exists e0, In (inl e0) (map (eval_run data) run_files)).
  { exists e. rewrite <- He. apply in_map; exact Hin. }
  destruct (parallel_failure frame _ disk Hf) as [e' Ee].
  exists e'. unfold bind. rewrite Ee. reflexivity.
Qed.

Lemma aggregate_all_or_nothing_witness :
  (exists f e, In f ["recs-1.parquet"; "recs-x.parquet"] /\ sample_eval "ml-100k" f = inl e)
  /\ exists e, main nat sample_eval "ml-100k" "als" None ["recs-1.parquet"; "recs-x.parquet"] []
               = ([], inl e).
Proof.
  assert (H : exists f e, In f ["recs-1.parquet"; "recs-x.parquet"]
                          /\ sample_eval "ml-100k" f = inl e).
  { exists "recs-x.parquet", AttributeError. split; [right; left; reflexivity | reflexivity]. }
  split; [exact H|]. exact (aggregate_all_or_nothing nat sample_eval _ _ None _ [] H).
Defined.

(** When every task succeeds, the table is written once, to the default
    output path. *)
Example aggregate_success :
  main nat sample_eval "ml-100k" "als" None ["recs-1.parquet"; "recs-2.parquet"] []
  = ([("runs/ml-100k-als-scores.parquet", [("1", 0%nat)])], inr tt).
Proof. reflexivity. Qed.

End AggregateProps.

(* ========================================================================= *)
(** * Further properties of [lkdemo/metrics.py] *)

Module MetricsExtra.
Import Metrics MetricsProps.

Lemma Qpower_succ (p : Q) (i : nat) :
  Qpower p (Z.of_nat (S i)) == p * Qpower p (Z.of_nat i).
Proof.
  rewrite Nat2Z.inj_succ, <- Z.add_1_r.
  rewrite Qpower_plus' by lia. rewrite Qpower_1_r. ring.
Qed.

(** The geometric sum [1 + p + ... + p^(n-1)] times [(1 - p)]. *)
Lemma geom_sum (p : Q) (n : nat) :
  qsum (map (fun i => Qpower p (Z.of_nat i)) (seq 0 n)) * (1 - p)
  == 1 - Qpower p (Z.of_nat n).
Proof.
  induction n as [|n IH].
  - simpl. ring.
  - rewrite seq_S, map_app, qsum_app. cbn [map]. unfold qsum at 2. cbn [fold_right].
    rewrite Nat.add_0_l.
    rewrite Qpower_succ.
    transitivity (qsum (map (fun i => Qpower p (Z.of_nat i)) (seq 0 n)) * (1 - p)
                  + Qpower p (Z.of_nat n) * (1 - p)); [ring|].
    rewrite IH. ring.
Qed.

Lemma qsum_scale (c : Q) (xs : list Q) : qsum (map (fun x => c * x) xs) == c * qsum xs.
Proof. induction xs as [|x xs IH]; simpl; [ring|]. rewrite IH; ring. Qed.

Lemma qsum_map_ext {A} (f g : A -> Q) (l : list A) :
  (forall x, f x == g x) -> qsum (map f l) == qsum (map g l).
Proof.
  intros H. induction l as [|x l IH]; [reflexivity|].
  change (f x + qsum (map f l) == g x + qsum (map g l)). rewrite H, IH. reflexivity.
Qed.

(** [rbp_max] in closed form: [(1 - p) * (p + ... + p^n) = p * (1 - p^n)]. *)
Theorem rbp_max_closed_form (ngood : nat) (patience : Q) :
  rbp_max ngood patience == patience * (1 - Qpower patience (Z.of_nat ngood)).
Proof.
  unfold rbp_max. rewrite <- seq_shift, map_map.
  assert (E : qsum (map (fun i => Qpower patience (Z.of_nat (S i))) (seq 0 ngood))
              == patience * qsum (map (fun i => Qpower patience (Z.of_nat i)) (seq 0 ngood))).
  { rewrite <- qsum_scale, map_map. apply qsum_map_ext. intros i; apply Qpower_succ. }
  rewrite E, <- (geom_sum patience ngood). ring.
Qed.

(** For a patience in (0,1), [rbp_max] lies in [0, patience), and grows with
    the number of relevant items. *)
Theorem rbp_max_bounds (patience : Q) (n1 n2 : nat) :
  0 < patience < 1 -> (n1 <= n2)%nat ->
  0 <= rbp_max n1 patience /\ rbp_max n1 patience < patience
  /\ rbp_max n1 patience <= rbp_max n2 patience.
Proof.
  intros [H0 H1] Hn. rewrite !rbp_max_closed_form.
  assert (Hpos : forall n : nat, 0 < Qpower patience (Z.of_nat n))
    by (intros n; apply Qpower_0_lt; exact H0).
  assert (Hle1 : forall n : nat, Qpower patience (Z.of_nat n) <= 1).
  { intros n. change (Qpower patience (Z.of_nat n) <= Qpower patience 0).
    apply (discount_antitone patience 0 (Z.of_nat n)); [lra|lia]. }
  assert (Hmono : Qpower patience (Z.of_nat n2) <= Qpower patience (Z.of_nat n1))
    by (apply (discount_antitone patience); [lra|lia]).
  specialize (Hpos n1). specialize (Hle1 n1).
  split; [|split].
  - apply Qmult_le_0_compat; lra.
  - nra.
  - rewrite !(Qmult_comm patience). apply Qmult_le_compat_r; lra.
Qed.

Lemma rbp_max_bounds_witness :
  (0 < PATIENCE < 1) /\ (1 <= 3)%nat
  /\ (0 <= rbp_max 1 PATIENCE /\ rbp_max 1 PATIENCE < PATIENCE
      /\ rbp_max 1 PATIENCE <= rbp_max 3 PATIENCE).
Proof.
  assert (H : 0 < PATIENCE < 1) by (split; reflexivity).
  assert (Hn : (1 <= 3)%nat) by lia.
  split; [exact H|]. split; [exact Hn|]. exact (rbp_max_bounds PATIENCE 1 3 H Hn).
Defined.

(** [test_weight] divides by zero, and so raises, for [n = 0] or a
    patience of 1. *)
Theorem test_weight_zero_division (n : Z) (patience : Q) :
  (n = 0%Z \/ patience == 1) -> test_weight n patience = None.
Proof.
  intros H. unfold test_weight.
  replace (Qeq_bool (inject_Z n * (1 - patience)) 0) with true; [rewrite orb_true_r; reflexivity|].
  symmetry. apply Qeq_bool_iff. destruct H as [->|H].
  - simpl. reflexivity.
  - rewrite H. ring.
Qed.

Lemma test_weight_zero_division_witness :
  (0%Z = 0%Z \/ PATIENCE == 1) /\ test_weight 0 PATIENCE = None.
Proof.
  assert (H : 0%Z = 0%Z \/ PATIENCE == 1) by (left; reflexivity).
  split; [exact H | exact (test_weight_zero_division 0 PATIENCE H)].
Defined.

(** For [n >= 1] and a patience other than 1, [test_weight n] is the average
    discount over ranks [0 .. n-1]. *)
Theorem test_weight_average (n : nat) (patience : Q) :
  (1 <= n)%nat -> ~ patience == 1 ->
  exists w, test_weight (Z.of_nat n) patience = Some w
            /\ w * inject_Z (Z.of_nat n)
               == qsum (map (fun i => Qpower patience (Z.of_nat i)) (seq 0 n)).
Proof.
  intros Hn Hp. unfold test_weight.
  assert (Hd : ~ inject_Z (Z.of_nat n) * (1 - patience) == 0).
  { intros H. apply Qmult_integral in H as [H|H].
    - unfold Qeq in H; simpl in H. lia.
    - apply Hp. lra. }
  destruct (Qeq_bool (inject_Z (Z.of_nat n) * (1 - patience)) 0) eqn:E.
  { apply Qeq_bool_iff in E. contradiction. }
  replace (Z.ltb (Z.of_nat n) 0) with false by (symmetry; apply Z.ltb_ge; lia).
  rewrite andb_false_r.
  eexists; split; [reflexivity|].
  assert (Hq : ~ 1 - patience == 0) by (intros H; apply Hp; lra).
  assert (Hz : ~ inject_Z (Z.of_nat n) == 0).
  { intros H. unfold Qeq in H; simpl in H. lia. }
  rewrite <- (geom_sum patience n).
  field. split; assumption.
Qed.

Lemma test_weight_average_witness :
  (1 <= 3)%nat /\ ~ PATIENCE == 1
  /\ exists w, test_weight (Z.of_nat 3) PATIENCE = Some w
               /\ w * inject_Z (Z.of_nat 3)
                  == qsum (map (fun i => Qpower PATIENCE (Z.of_nat i)) (seq 0 3)).
Proof.
  assert (H1 : (1 <= 3)%nat) by lia.
  assert (H2 : ~ PATIENCE == 1) by (intros H; discriminate H).
  split; [exact H1|]. split; [exact H2|]. exact (test_weight_average 3 PATIENCE H1 H2).
Defined.

(** *** The scalar form *)

Lemma rbp_some (recs : list rec) (truth : list item) (k : option nat) (p s : Q) :
  rbp recs truth k p = Some s ->
  s = qsum (map (fun r => discount r p)
                (map rank (filter (fun r => isin (ritem r) truth) (truncate k recs)))) * (1 - p).
Proof.
  unfold rbp. destruct (Nat.eqb (length truth) 0); [discriminate|]. congruence.
Qed.

(** For a patience in [0, 1] every score is non-negative. *)
Theorem rbp_nonneg (recs : list rec) (truth : list item) (k : option nat) (p s : Q) :
  0 <= p <= 1 -> rbp recs truth k p = Some s -> 0 <= s.
Proof.
  intros Hp E. apply rbp_some in E. subst s.
  apply Qmult_le_0_compat; [|lra].
  apply qsum_nonneg. intros x Hx. rewrite map_map in Hx.
  apply in_map_iff in Hx as [r [<- _]]. apply discount_nonneg; lra.
Qed.

Lemma rbp_nonneg_witness :
  (0 <= PATIENCE <= 1)
  /\ rbp [mkRec 1 5] [5%nat] None PATIENCE = Some ((Qpower PATIENCE 1 + 0) * (1 - PATIENCE))
  /\ 0 <= (Qpower PATIENCE 1 + 0) * (1 - PATIENCE).
Proof.
  assert (H : 0 <= PATIENCE <= 1) by (split; discriminate).
  assert (E : rbp [mkRec 1 5] [5%nat] None PATIENCE
              = Some ((Qpower PATIENCE 1 + 0) * (1 - PATIENCE))) by reflexivity.
  split; [exact H|]. split; [exact E|]. exact (rbp_nonneg _ _ _ _ _ H E).
Defined.

(** A cutoff at least as long as the list changes nothing. *)
Theorem rbp_cutoff_beyond_length (recs : list rec) (truth : list item) (k : nat) (p : Q) :
  (length recs <= k)%nat -> rbp recs truth (Some k) p = rbp recs truth None p.
Proof. intros Hk. unfold rbp. simpl. rewrite firstn_all2 by exact Hk. reflexivity. Qed.

Lemma rbp_cutoff_beyond_length_witness :
  (length [mkRec 1 5; mkRec 2 6] <= 1000)%nat
  /\ rbp [mkRec 1 5; mkRec 2 6] [6%nat] (Some 1000%nat) PATIENCE
     = rbp [mkRec 1 5; mkRec 2 6] [6%nat] None PATIENCE.
Proof.
  assert (H : (length [mkRec 1 5; mkRec 2 6] <= 1000)%nat) by (simpl; lia).
  split; [exact H | exact (rbp_cutoff_beyond_length _ _ _ _ H)].
Defined.

(** Without a cutoff, the score of a concatenated list is the sum of the
    scores of its parts. *)
Theorem rbp_app (recs1 recs2 : list rec) (truth : list item) (p s s1 s2 : Q) :
  rbp (recs1 ++ recs2) truth None p = Some s ->
  rbp recs1 truth None p = Some s1 ->
  rbp recs2 truth None p = Some s2 ->
  s == s1 + s2.
Proof.
  intros E E1 E2. apply rbp_some in E, E1, E2. subst. simpl.
  rewrite filter_app, !map_app, qsum_app. ring.
Qed.

Lemma rbp_app_witness :
  rbp ([mkRec 1 5] ++ [mkRec 2 6]) [5%nat; 6%nat] None PATIENCE
    = Some ((Qpower PATIENCE 1 + (Qpower PATIENCE 2 + 0)) * (1 - PATIENCE))
  /\ rbp [mkRec 1 5] [5%nat; 6%nat] None PATIENCE
    = Some ((Qpower PATIENCE 1 + 0) * (1 - PATIENCE))
  /\ rbp [mkRec 2 6] [5%nat; 6%nat] None PATIENCE
    = Some ((Qpower PATIENCE 2 + 0) * (1 - PATIENCE))
  /\ (Qpower PATIENCE 1 + (Qpower PATIENCE 2 + 0)) * (1 - PATIENCE)
     == (Qpower PATIENCE 1 + 0) * (1 - PATIENCE) + (Qpower PATIENCE 2 + 0) * (1 - PATIENCE).
Proof.
  assert (E : rbp ([mkRec 1 5] ++ [mkRec 2 6]) [5%nat; 6%nat] None PATIENCE
    = Some ((Qpower PATIENCE 1 + (Qpower PATIENCE 2 + 0)) * (1 - PATIENCE))) by reflexivity.
  assert (E1 : rbp [mkRec 1 5] [5%nat; 6%nat] None PATIENCE
    = Some ((Qpower PATIENCE 1 + 0) * (1 - PATIENCE))) by reflexivity.
  assert (E2 : rbp [mkRec 2 6] [5%nat; 6%nat] None PATIENCE
    = Some ((Qpower PATIENCE 2 + 0) * (1 - PATIENCE))) by reflexivity.
  split; [exact E|]. split; [exact E1|]. split; [exact E2|].
  exact (rbp_app _ _ _ _ _ _ _ E E1 E2).
Defined.

(** The score depends on the truth frame only through which items it
    holds: duplicates and order of truth entries do not matter. *)
Theorem rbp_truth_members (recs : list rec) (t1 t2 : list item) (k : option nat) (p : Q) :
  t1 <> [] -> (forall i, In i t1 <-> In i t2) ->
  rbp recs t1 k p = rbp recs t2 k p.
Proof.
  intros Hne Hiff. unfold rbp.
  assert (Hne2 : t2 <> []).
  { destruct t1 as [|x t1]; [contradiction|]. intros ->. apply (proj1 (Hiff x)). left; reflexivity. }
  destruct (Nat.eqb (length t1) 0) eqn:E1.
  { apply Nat.eqb_eq, length_zero_iff_nil in E1; contradiction. }
  destruct (Nat.eqb (length t2) 0) eqn:E2.
  { apply Nat.eqb_eq, length_zero_iff_nil in E2; contradiction. }
  do 2 f_equal. do 3 f_equal. apply filter_ext. intros r.
  apply eq_true_iff_eq. rewrite !isin_In. apply Hiff.
Qed.

Lemma rbp_truth_members_witness :
  ([5%nat; 5%nat; 6%nat] <> [])
  /\ (forall i, In i [5%nat; 5%nat; 6%nat] <-> In i [6%nat; 5%nat])
  /\ rbp [mkRec 1 5] [5%nat; 5%nat; 6%nat] None PATIENCE = rbp [mkRec 1 5] [6%nat; 5%nat] None PATIENCE.
Proof.
  assert (H1 : [5%nat; 5%nat; 6%nat] <> []) by discriminate.
  assert (H2 : forall i, In i [5%nat; 5%nat; 6%nat] <-> In i [6%nat; 5%nat]).
  { intros i; simpl; split; intros H; repeat destruct H as [H|H]; subst; auto; contradiction. }
  split; [exact H1|]. split; [exact H2|]. exact (rbp_truth_members _ _ _ _ _ H1 H2).
Defined.

(** *** The bulk form *)

(** The bulk form has an entry for a list exactly when one of its rows
    within the cutoff joins a truth row. *)
Theorem bulk_rbp_entry_iff (recs : list brow) (truth : list trow) (k : option nat)
    (p : Q) (rid : nat) :
  series_get (_bulk_rbp recs truth k p) rid <> None
  <-> exists b, In b recs /\ LKRecID b = rid /\ trunc_pred k b = true
                /\ join_hit truth b = true.
Proof.
  rewrite bulk_get. cbv zeta.
  destruct (existsb (fun b => Nat.eqb (LKRecID b) rid)
             (join_inner (bulk_truncate k recs) truth)) eqn:E.
  - split; [intros _|intros _; discriminate].
    apply existsb_exists in E as [b [Hb Eb]]. apply Nat.eqb_eq in Eb.
    unfold join_inner in Hb. apply in_flat_map in Hb as [b' [Hb' Hin]].
    apply in_map_iff in Hin as [t [<- Ht]]. apply filter_In in Ht as [Ht Hm].
    rewrite bulk_truncate_filter in Hb'. apply filter_In in Hb' as [Hb' Htr].
    exists b'; repeat split; try assumption.
    unfold join_hit. apply existsb_exists. exists t; split; assumption.
  - split; [intros H; contradiction H; reflexivity|].
    intros [b [Hb [Eb [Htr Hj]]]].
    assert (Hin : In b (join_inner (bulk_truncate k recs) truth)).
    { unfold join_inner. apply in_flat_map. exists b. split.
      - rewrite bulk_truncate_filter. apply filter_In; split; assumption.
      - unfold join_hit in Hj. apply existsb_exists in Hj as [t [Ht Hm]].
        apply in_map_iff. exists t. split; [reflexivity|]. apply filter_In; split; assumption. }
    assert (existsb (fun b => Nat.eqb (LKRecID b) rid)
              (join_inner (bulk_truncate k recs) truth) = true).
    { apply existsb_exists. exists b. split; [exact Hin|]. apply Nat.eqb_eq; exact Eb. }
    congruence.
Qed.

Lemma join_inner_app (r1 r2 : list brow) (truth : list trow) :
  join_inner (r1 ++ r2) truth = join_inner r1 truth ++ join_inner r2 truth.
Proof. unfold join_inner. apply flat_map_app. Qed.

(** A list's bulk entry depends only on that list's rows: appending rows of
    other lists leaves it unchanged. *)
Theorem bulk_rbp_local (recs1 recs2 : list brow) (truth : list trow) (k : option nat)
    (p : Q) (rid : nat) :
  (forall b, In b recs2 -> LKRecID b <> rid) ->
  series_get (_bulk_rbp (recs1 ++ recs2) truth k p) rid
  = series_get (_bulk_rbp recs1 truth k p) rid.
Proof.
  intros Hother. rewrite !bulk_get. cbv zeta.
  rewrite !bulk_truncate_filter, filter_app, join_inner_app.
  assert (H2 : filter (fun b => Nat.eqb (LKRecID b) rid)
                 (join_inner (filter (trunc_pred k) recs2) truth) = []).
  { apply filter_none. intros b Hb. apply Nat.eqb_neq. apply Hother.
    unfold join_inner in Hb. apply in_flat_map in Hb as [b' [Hb' Hin]].
    apply in_map_iff in Hin as [t [<- _]]. apply filter_In in Hb' as [Hb' _]. exact Hb'. }
  rewrite existsb_app, filter_app, H2, app_nil_r.
  rewrite (existsb_filter _ (join_inner (filter (trunc_pred k) recs2) truth)), H2.
  rewrite orb_false_r. reflexivity.
Qed.

Lemma bulk_rbp_local_witness :
  (forall b, In b [mkBRow 1 6 1 12] -> LKRecID b <> 0%nat)
  /\ series_get (_bulk_rbp ([mkBRow 0 5 1 11] ++ [mkBRow 1 6 1 12])
                           [mkTRow 5 11; mkTRow 6 12] None PATIENCE) 0%nat
     = series_get (_bulk_rbp [mkBRow 0 5 1 11] [mkTRow 5 11; mkTRow 6 12] None PATIENCE) 0%nat.
Proof.
  assert (H : forall b, In b [mkBRow 1 6 1 12] -> LKRecID b <> 0%nat).
  { intros b [<-|[]]. discriminate. }
  split; [exact H | exact (bulk_rbp_local _ _ _ _ _ _ H)].
Defined.

(** For a patience in [0, 1] every value of the bulk series is
    non-negative. *)
Theorem bulk_rbp_nonneg (recs : list brow) (truth : list trow) (k : option nat)
    (p : Q) (rid : nat) (v : Q) :
  0 <= p <= 1 -> series_get (_bulk_rbp recs truth k p) rid = Some v -> 0 <= v.
Proof.
  intros Hp E. rewrite bulk_get in E. cbv zeta in E.
  destruct (existsb _ _); [|discriminate]. injection E as <-.
  apply Qmult_le_0_compat; [|lra].
  apply qsum_nonneg. intros x Hx. apply in_map_iff in Hx as [b [<- _]].
  apply discount_nonneg; lra.
Qed.

Lemma bulk_rbp_nonneg_witness :
  (0 <= PATIENCE <= 1)
  /\ series_get (_bulk_rbp [mkBRow 0 5 1 11] [mkTRow 5 11] None PATIENCE) 0%nat
     = Some ((Qpower PATIENCE 1 + 0) * (1 - PATIENCE))
  /\ 0 <= (Qpower PATIENCE 1 + 0) * (1 - PATIENCE).
Proof.
  assert (H : 0 <= PATIENCE <= 1) by (split; discriminate).
  assert (E : series_get (_bulk_rbp [mkBRow 0 5 1 11] [mkTRow 5 11] None PATIENCE) 0%nat
              = Some ((Qpower PATIENCE 1 + 0) * (1 - PATIENCE))) by reflexivity.
  split; [exact H|]. split; [exact E|]. exact (bulk_rbp_nonneg _ _ _ _ _ _ H E).
Defined.

Lemma join_inner_dup_sum (l : list brow) (truth : list trow) (f : brow -> bool) (d : brow -> Q) :
  qsum (map d (filter f (join_inner l (truth ++ truth))))
  == 2 * qsum (map d (filter f (join_inner l truth))).
Proof.
  induction l as [|b l IH]; [reflexivity|].
  change (join_inner (b :: l) (truth ++ truth))
    with (map (fun _ => b) (filter (fun t => Nat.eqb (tLKTruthID t) (LKTruthID b)
                                              && Nat.eqb (titem t) (bitem b)) (truth ++ truth))
          ++ join_inner l (truth ++ truth)).
  change (join_inner (b :: l) truth)
    with (map (fun _ => b) (filter (fun t => Nat.eqb (tLKTruthID t) (LKTruthID b)
                                              && Nat.eqb (titem t) (bitem b)) truth)
          ++ join_inner l truth).
  repeat (rewrite filter_app || rewrite map_app). rewrite !qsum_app, IH. ring.
Qed.

Lemma join_inner_dup_In (l : list brow) (truth : list trow) (x : brow) :
  In x (join_inner l (truth ++ truth)) <-> In x (join_inner l truth).
Proof.
  unfold join_inner. rewrite !in_flat_map. split; intros [b [Hb Hx]]; exists b; split; auto;
    apply in_map_iff in Hx as [t [Ht Htin]]; apply in_map_iff; exists t; split; auto;
    rewrite filter_In in *; rewrite ?in_app_iff in *; intuition.
Qed.

(** The inner join counts a truth row once per occurrence: with every truth
    row listed twice, each bulk entry doubles (the scalar form, which only
    tests membership, is unchanged). *)
Theorem bulk_rbp_duplicate_truth (recs : list brow) (truth : list trow) (k : option nat)
    (p : Q) (rid : nat) :
  match series_get (_bulk_rbp recs (truth ++ truth) k p) rid,
        series_get (_bulk_rbp recs truth k p) rid with
  | Some v2, Some v1 => v2 == 2 * v1
  | None, None => True
  | _, _ => False
  end.
Proof.
  rewrite !bulk_get. cbv zeta.
  replace (existsb (fun b => Nat.eqb (LKRecID b) rid) (join_inner (bulk_truncate k recs) (truth ++ truth)))
    with (existsb (fun b => Nat.eqb (LKRecID b) rid) (join_inner (bulk_truncate k recs) truth)).
  - destruct (existsb _ _); [|exact I].
    rewrite join_inner_dup_sum. ring.
  - apply eq_true_iff_eq. rewrite !existsb_exists.
    split; intros [x [Hx Ex]]; exists x; split; auto; apply join_inner_dup_In; auto.
Qed.

End MetricsExtra.

(* ========================================================================= *)
(** * Further properties of [split-data.py] *)

Module SplitExtra.
Import Py SplitData SplitProps.
Import String.
Local Open Scope string_scope.

(** The sampling branch, for any [-R] value: [max(reps, 1)] samples, named
    [test-<i>.parquet] when [reps] is truthy and [test.parquet] otherwise. *)
Lemma split_sampling_mode (p u : pyval) (r : Z) :
  truthy p = false -> (is_None p && is_None u)%bool = false ->
  main (mkArgs p u (PyInt r)) init
  = (mkState (app preamble (map (fun _ => (INFO, "writing test data %s")) (range (Z.max r 1))))
             (map (fun i => if negb (Z.eqb r 0) then test_i i else "test.parquet")
                  (range (Z.max r 1))), inr tt).
Proof.
  intros Hp Hpu. unfold main. cbn [arg_p arg_u arg_R]. rewrite Hpu, Hp.
  unfold bind at 1 2 3 4. cbn - [for_each range test_i].
  rewrite (for_each_writes (range (Z.max r 1)) _
             (fun i => if negb (Z.eqb r 0) then test_i i else "test.parquet")
             (INFO, "writing test data %s")) by reflexivity.
  reflexivity.
Qed.

Lemma string_length_append (a b : string) :
  String.length (String.append a b) = (String.length a + String.length b)%nat.
Proof. induction a as [|c a IH]; simpl; [reflexivity | rewrite IH; reflexivity]. Qed.

Lemma string_append_inj_l (p a b : string) :
  String.append p a = String.append p b -> a = b.
Proof. induction p as [|c p IH]; simpl; [auto | intros H; injection H; exact IH]. Qed.

Lemma string_append_inj_r (a b c : string) :
  String.append a c = String.append b c -> a = b.
Proof.
  revert b; induction a as [|x a IH]; intros [|y b]; simpl; intros H.
  - reflexivity.
  - apply (f_equal String.length) in H. simpl in H.
    rewrite string_length_append in H. lia.
  - apply (f_equal String.length) in H. simpl in H.
    rewrite string_length_append in H. lia.
  - injection H as -> H. f_equal. apply IH, H.
Qed.

Lemma to_int_not_nil (i : Z) :
  Z.to_int i <> Decimal.Pos Decimal.Nil /\ Z.to_int i <> Decimal.Neg Decimal.Nil.
Proof.
  pose proof (DecimalZ.of_to i) as Hi.
  split; intros H; rewrite H in Hi; cbn in Hi; subst i; discriminate H.
Qed.

(** [f'{i}'] never prints two integers alike. *)
Lemma str_of_int_inj (i j : Z) : str_of_int i = str_of_int j -> i = j.
Proof.
  unfold str_of_int. intros H.
  apply (f_equal DecimalString.NilZero.int_of_string) in H.
  destruct (to_int_not_nil i) as [Hi1 Hi2], (to_int_not_nil j) as [Hj1 Hj2].
  rewrite !DecimalString.NilZero.isi in H by assumption.
  injection H. apply DecimalZ.to_int_inj.
Qed.

Lemma test_i_inj : Finite.Injective test_i.
Proof.
  intros i j H. unfold test_i in H.
  apply string_append_inj_l, string_append_inj_r, str_of_int_inj in H. exact H.
Qed.

Lemma range_NoDup (n : Z) : NoDup (range n).
Proof.
  apply Finite.Injective_map_NoDup; [intros x y; lia | apply seq_NoDup].
Qed.

Lemma enumerate_NoDup (n : nat) : NoDup (enumerate_from_1 n).
Proof.
  apply Finite.Injective_map_NoDup; [intros x y; lia | apply seq_NoDup].
Qed.

(** With neither [-p] nor [-u] the splitter logs one error and exits with
    status 2 before loading anything or writing any file, whatever [-R]
    holds. *)
Theorem split_requires_p_or_u (reps : pyval) :
  main (mkArgs PyNone PyNone reps) init
  = (mkState [(ERROR, "must specify at least 1 of -p and -u")] [], inl (SystemExit 2)).
Proof. reflexivity. Qed.

(** [-p 0] is not [None], so it passes the argument check, but it is falsy:
    given [-u], the splitter behaves exactly as without [-p] (sampling mode). *)
Theorem split_zero_partitions_is_sampling (nusers reps : pyval) :
  nusers <> PyNone ->
  main (mkArgs (PyInt 0) nusers reps) = main (mkArgs PyNone nusers reps).
Proof. destruct nusers as [|z]; [contradiction | reflexivity]. Qed.

Lemma split_zero_partitions_is_sampling_witness :
  PyInt 100 <> PyNone
  /\ main (mkArgs (PyInt 0) (PyInt 100) (PyInt 2)) = main (mkArgs PyNone (PyInt 100) (PyInt 2)).
Proof.
  assert (H : PyInt 100 <> PyNone) by discriminate.
  split; [exact H|]. exact (split_zero_partitions_is_sampling _ (PyInt 2) H).
Defined.

(** A repetition count [r <= 0] in sampling mode still draws one sample:
    [-R 0] writes [test.parquet], a negative count writes [test-0.parquet]. *)
Theorem split_nonpositive_reps (nusers r : Z) :
  (r <= 0)%Z ->
  main (mkArgs PyNone (PyInt nusers) (PyInt r)) init
  = (mkState (app preamble [(INFO, "writing test data %s")])
             [if Z.eqb r 0 then "test.parquet" else test_i 0], inr tt).
Proof.
  intros Hr. rewrite split_sampling_mode by reflexivity.
  replace (Z.max r 1) with 1%Z by lia.
  destruct (Z.eqb r 0); reflexivity.
Qed.

Lemma split_nonpositive_reps_witness :
  (-3 <= 0)%Z
  /\ main (mkArgs PyNone (PyInt 50) (PyInt (-3))) init
     = (mkState (app preamble [(INFO, "writing test data %s")])
                [if Z.eqb (-3) 0 then "test.parquet" else test_i 0], inr tt).
Proof.
  assert (H : (-3 <= 0)%Z) by lia.
  split; [exact H|]. exact (split_nonpositive_reps 50 (-3) H).
Defined.

(** A run that completes never writes the same test file twice: the file
    names of one run are pairwise distinct in every mode. *)
Theorem split_files_distinct (a : args) :
  snd (main a init) = inr tt -> NoDup (files (fst (main a init))).
Proof.
  destruct a as [p u R].
  destruct (truthy p) eqn:Hp.
  - destruct p as [|P]; [discriminate|].
    assert (HP : P <> 0%Z) by (intros ->; discriminate).
    rewrite split_partition_mode by exact HP. intros _. cbn [fst files].
    apply Finite.Injective_map_NoDup; [exact test_i_inj | apply enumerate_NoDup].
  - destruct (is_None p && is_None u)%bool eqn:Hpu.
    + destruct p as [|P]; [|discriminate]. destruct u as [|z]; [|discriminate].
      rewrite split_requires_p_or_u. discriminate.
    + destruct R as [|r].
      * unfold main. cbn [arg_p arg_u arg_R]. rewrite Hpu, Hp.
        unfold bind at 1 2 3 4. cbn. discriminate.
      * rewrite split_sampling_mode by assumption. intros _. cbn [fst files].
        destruct (Z.eqb r 0) eqn:Er; cbn [negb].
        -- apply Z.eqb_eq in Er; subst r.
           constructor; [intros []|constructor].
        -- apply Finite.Injective_map_NoDup; [exact test_i_inj | apply range_NoDup].
Qed.

Lemma split_files_distinct_witness :
  snd (main (mkArgs PyNone (PyInt 100) (PyInt 5)) init) = inr tt
  /\ NoDup (files (fst (main (mkArgs PyNone (PyInt 100) (PyInt 5)) init))).
Proof.
  assert (H : snd (main (mkArgs PyNone (PyInt 100) (PyInt 5)) init) = inr tt)
    by reflexivity.
  split; [exact H|]. exact (split_files_distinct _ H).
Defined.

End SplitExtra.

(* ========================================================================= *)
(** * Further properties of [compute-metrics.py] *)

Module AggregateExtra.
Import Py ComputeMetrics.
Import String.
Local Open Scope string_scope.

Lemma strip_prefix_app (pre s : string) :
  strip_prefix pre (String.append pre s) = Some s.
Proof.
  induction pre as [|c pre IH]; simpl; [reflexivity|].
  rewrite Ascii.eqb_refl. exact IH.
Qed.

Lemma strip_prefix_some (pre s r : string) :
  strip_prefix pre s = Some r -> s = String.append pre r.
Proof.
  revert s; induction pre as [|c pre IH]; intros [|c' s]; simpl; intros H.
  - injection H as <-; reflexivity.
  - injection H as <-; reflexivity.
  - discriminate.
  - destruct (Ascii.eqb_spec c c') as [<-|]; [|discriminate].
    f_equal. apply IH, H.
Qed.

Lemma take_digits_some (s ds r : string) :
  take_digits s = (ds, r) -> s = String.append ds r /\ all_digits ds = true.
Proof.
  revert ds r; induction s as [|c s IH]; intros ds r; simpl.
  - intros H; injection H as <- <-; split; reflexivity.
  - destruct (is_digit c) eqn:Hc.
    + destruct (take_digits s) as [ds' r'] eqn:Ht. intros H; injection H as <- <-.
      destruct (IH ds' r' eq_refl) as [-> Hd]. simpl. rewrite Hc, Hd. split; reflexivity.
    + intros H; injection H as <- <-. split; reflexivity.
Qed.

Lemma take_digits_app (ds rest : string) :
  all_digits ds = true ->
  take_digits (String.append ds (String.append ".parquet" rest))
  = (ds, String.append ".parquet" rest).
Proof.
  induction ds as [|c ds IH]; [reflexivity|].
  remember (String.append ".parquet" rest) as x eqn:Ex. simpl.
  intros H. apply andb_true_iff in H as [Hc Hd]. rewrite Hc, IH by exact Hd.
  reflexivity.
Qed.

Lemma fn_re_match_app (ds rest : string) :
  ds <> "" -> all_digits ds = true ->
  fn_re_match (String.append "recs-" (String.append ds (String.append ".parquet" rest)))
  = Some ds.
Proof.
  intros Hne Hd. unfold fn_re_match. rewrite strip_prefix_app.
  rewrite take_digits_app by exact Hd.
  destruct ds as [|c ds]; [contradiction|]. rewrite strip_prefix_app. reflexivity.
Qed.

(** What [_fn_re.match(name).group(1)] accepts: the match succeeds exactly on
    names of the form [recs-<digits>.parquet<anything>], with a nonempty
    digit run, and its group is that digit run. *)
Theorem fn_re_match_spec (name part : string) :
  fn_re_match name = Some part
  <-> part <> "" /\ all_digits part = true
      /\ exists rest, name = String.append "recs-"
                               (String.append part (String.append ".parquet" rest)).
Proof.
  split.
  - unfold fn_re_match.
    destruct (strip_prefix "recs-" name) as [r0|] eqn:H0; [|discriminate].
    apply strip_prefix_some in H0.
    destruct (take_digits r0) as [ds r] eqn:Ht.
    apply take_digits_some in Ht as [Hr0 Hd].
    destruct ds as [|c ds']; [discriminate|].
    destruct (strip_prefix ".parquet" r) as [rest|] eqn:H1; [|discriminate].
    apply strip_prefix_some in H1. intros H; injection H as <-.
    split; [discriminate|]. split; [exact Hd|].
    exists rest. rewrite H0, Hr0, H1. reflexivity.
  - intros [Hne [Hd [rest ->]]]. apply fn_re_match_app; assumption.
Qed.

Lemma string_of_uint_digits (d : Decimal.uint) :
  all_digits (DecimalString.NilEmpty.string_of_uint d) = true.
Proof. induction d; simpl; try rewrite IHd; reflexivity. Qed.

(** The decimal text of a non-negative integer is a nonempty digit run; that
    of a negative one starts with a minus sign. *)
Lemma str_of_int_shape (i : Z) :
  if Z.leb 0 i then str_of_int i <> "" /\ all_digits (str_of_int i) = true
  else exists t, str_of_int i = String (Ascii.ascii_of_nat 45) t.
Proof.
  destruct i as [|p|p]; simpl.
  - split; [discriminate | reflexivity].
  - unfold str_of_int; simpl. unfold DecimalString.NilZero.string_of_uint.
    destruct (Pos.to_uint p) eqn:E;
      (split; [discriminate | apply (string_of_uint_digits (_ _))]) ||
      (split; [discriminate | reflexivity]).
  - eexists; reflexivity.
Qed.

(** The run file [recs-<i>.parquet] is scored against the truth file the
    splitter writes for sample or partition [i], [test-<i>.parquet] under
    [data-split/<data>/]; for a negative [i] the name does not match the
    pattern and [eval_run] raises [AttributeError]. *)
Theorem eval_run_pairs_split_file (data : string) (i : Z) :
  eval_run_test_path data
    (String.append "recs-" (String.append (str_of_int i) ".parquet"))
  = if Z.leb 0 i
    then inr (String.append "data-split/" (String.append data
               (String.append "/" (SplitData.test_i i))))
    else inl AttributeError.
Proof.
  pose proof (str_of_int_shape i) as Hs.
  destruct (Z.leb 0 i).
  - destruct Hs as [Hne Hd]. unfold eval_run_test_path.
    pose proof (fn_re_match_app (str_of_int i) "" Hne Hd) as Hm.
    change (String.append ".parquet" "") with ".parquet" in Hm.
    rewrite Hm. reflexivity.
  - destruct Hs as [t Ht]. rewrite Ht. reflexivity.
Qed.

Section Dict.
Variable frame : Type.

Lemma find_app {A} (f : A -> bool) (l1 l2 : list A) :
  find f (app l1 l2) = match find f l1 with Some x => Some x | None => find f l2 end.
Proof. induction l1 as [|a l1 IH]; simpl; [reflexivity|]. destruct (f a); auto. Qed.

Lemma dict_get_app (d1 d2 : list (string * frame)) (k : string) :
  dict_get (app d1 d2) k
  = match dict_get d1 k with Some v => Some v | None => dict_get d2 k end.
Proof. unfold dict_get. rewrite find_app. destruct (find _ d1); reflexivity. Qed.

Lemma dict_get_insert (k k' : string) (v : frame) (d : list (string * frame)) :
  dict_get (dict_insert frame k v d) k'
  = if String.eqb k k' then Some v else dict_get d k'.
Proof.
  induction d as [|[k0 v0] d IH]; simpl.
  - unfold dict_get; simpl. destruct (String.eqb k k'); reflexivity.
  - destruct (String.eqb_spec k k0) as [<-|Hne].
    + unfold dict_get; simpl. destruct (String.eqb k k'); reflexivity.
    + unfold dict_get in *; simpl. destruct (String.eqb k0 k') eqn:E0.
      * apply String.eqb_eq in E0; subst k'.
        apply String.eqb_neq in Hne. rewrite Hne. reflexivity.
      * exact IH.
Qed.

Lemma dict_insert_keys (k x : string) (v : frame) (d : list (string * frame)) :
  In x (map fst (dict_insert frame k v d)) <-> x = k \/ In x (map fst d).
Proof.
  induction d as [|[k0 v0] d IH]; simpl.
  - intuition congruence.
  - destruct (String.eqb_spec k k0) as [<-|Hne]; simpl.
    + intuition congruence.
    + rewrite IH. tauto.
Qed.

Lemma dict_insert_nodup (k : string) (v : frame) (d : list (string * frame)) :
  NoDup (map fst d) -> NoDup (map fst (dict_insert frame k v d)).
Proof.
  induction d as [|[k0 v0] d IH]; simpl; intros H.
  - constructor; [intros []|constructor].
  - inversion H as [|? ? Hn Hd]; subst.
    destruct (String.eqb_spec k k0) as [<-|Hne]; simpl.
    + constructor; assumption.
    + constructor; [|apply IH, Hd].
      rewrite dict_insert_keys. intros [->|Hin]; [apply Hne; reflexivity | contradiction].
Qed.

Definition dict_step (d : list (string * frame)) (kv : string * frame) :=
  dict_insert frame (fst kv) (snd kv) d.

Lemma dict_fold_get (pairs acc : list (string * frame)) (k : string) :
  dict_get (fold_left dict_step pairs acc) k
  = match dict_get (rev pairs) k with Some v => Some v | None => dict_get acc k end.
Proof.
  revert acc; induction pairs as [|[k0 v0] ps IH]; intros acc; simpl; [reflexivity|].
  rewrite IH. unfold dict_step; simpl. rewrite dict_get_insert, dict_get_app.
  destruct (dict_get (rev ps) k); [reflexivity|].
  unfold dict_get; simpl. destruct (String.eqb k0 k); reflexivity.
Qed.

Lemma dict_fold_keys (pairs acc : list (string * frame)) (x : string) :
  In x (map fst (fold_left dict_step pairs acc))
  <-> In x (map fst pairs) \/ In x (map fst acc).
Proof.
  revert acc; induction pairs as [|[k0 v0] ps IH]; intros acc; simpl; [tauto|].
  rewrite IH. unfold dict_step; simpl. rewrite dict_insert_keys. intuition congruence.
Qed.

Lemma dict_fold_nodup (pairs acc : list (string * frame)) :
  NoDup (map fst acc) -> NoDup (map fst (fold_left dict_step pairs acc)).
Proof.
  revert acc; induction pairs as [|kv ps IH]; intros acc H; simpl; [exact H|].
  apply IH. apply dict_insert_nodup, H.
Qed.

Lemma parallel_all_ok (vs : list (string * frame)) (s : state frame) :
  parallel frame (map inr vs) s = (s, inr vs).
Proof.
  induction vs as [|v vs IH]; simpl; [reflexivity|]. unfold bind. rewrite IH. reflexivity.
Qed.

End Dict.

(** [res = dict(pairs)] over the [(part, vals)] results: every partition id
    appears once, the ids are those of the results, and each id holds the
    value of its last result. *)
Theorem dict_last_wins (frame : Type) (pairs : list (string * frame)) :
  NoDup (map fst (dict frame pairs))
  /\ (forall k, In k (map fst (dict frame pairs)) <-> In k (map fst pairs))
  /\ (forall k, dict_get (dict frame pairs) k = dict_get (rev pairs) k).
Proof.
  unfold dict. fold (dict_step frame). split; [|split].
  - apply dict_fold_nodup. constructor.
  - intros k. rewrite dict_fold_keys. simpl. tauto.
  - intros k. rewrite dict_fold_get. destruct (dict_get (rev pairs) k); reflexivity.
Qed.

(** With no run file found, [pd.concat] of the empty dict raises
    [ValueError] and nothing is written. *)
Theorem aggregate_no_runs (frame : Type)
    (eval_run : string -> string -> exc + (string * frame))
    (data algo : string) (o : option string) (disk : state frame) :
  main frame eval_run data algo o [] disk = (disk, inl ValueError).
Proof. reflexivity. Qed.

(** When every run evaluates, the aggregator writes one table, [dict] of the
    results, to [-o] if given and nonempty and to
    [runs/<data>-<algo>-scores.parquet] otherwise, and adds nothing else. *)
Theorem aggregate_writes_once (frame : Type)
    (eval_run : string -> string -> exc + (string * frame))
    (data algo : string) (o : option string) (run_files : list string)
    (vs : list (string * frame)) (disk : state frame) :
  map (eval_run data) run_files = map inr vs -> run_files <> [] ->
  let default := String.append "runs/" (String.append data
                   (String.append "-" (String.append algo "-scores.parquet"))) in
  main frame eval_run data algo o run_files disk
  = (app disk [(match o with
                | Some f => if String.eqb f "" then default else f
                | None => default
                end, dict frame vs)], inr tt).
Proof.
  intros Hm Hne default. unfold main. rewrite Hm.
  unfold bind. rewrite parallel_all_ok.
  assert (Hd : dict frame vs <> []).
  { destruct vs as [|[k v] vs].
    - destruct run_files; [contradiction | discriminate Hm].
    - intros E.
      assert (Hk : In k (map fst (dict frame ((k, v) :: vs)))).
      { unfold dict. fold (dict_step frame). apply dict_fold_keys. left; left; reflexivity. }
      rewrite E in Hk. exact Hk. }
  destruct (dict frame vs) as [|r rs]; [contradiction|].
  destruct o as [f|]; [destruct (String.eqb f "")|]; reflexivity.
Qed.

Lemma aggregate_writes_once_witness :
  map (AggregateProps.sample_eval "ml-100k") ["recs-1.parquet"; "recs-2.parquet"]
  = map inr [("1", 0%nat); ("1", 0%nat)]
  /\ ["recs-1.parquet"; "recs-2.parquet"] <> []
  /\ main nat AggregateProps.sample_eval "ml-100k" "als" (Some "")
       ["recs-1.parquet"; "recs-2.parquet"] []
     = (app [] [("runs/ml-100k-als-scores.parquet", dict nat [("1", 0%nat); ("1", 0%nat)])],
        inr tt).
Proof.
  assert (H1 : map (AggregateProps.sample_eval "ml-100k") ["recs-1.parquet"; "recs-2.parquet"]
               = map inr [("1", 0%nat); ("1", 0%nat)]) by reflexivity.
  assert (H2 : ["recs-1.parquet"; "recs-2.parquet"] <> []) by discriminate.
  split; [exact H1|]. split; [exact H2|].
  exact (aggregate_writes_once nat AggregateProps.sample_eval "ml-100k" "als" (Some "")
           _ _ [] H1 H2).
Defined.

End AggregateExtra.
